(** * simply-openapi-controllers: the handler factory and its leaf utilities

    A shallow embedding of
    - [pickContentType] and [resolveReference] (the schema utilities),
    - [createMethodHandlerFromSpec] with its default resolvers and the
      value processor it hands to the processor factories,
    - [setMethodParameterType] (the argument decorator helper),
    together with the properties the design document states about them. *)

From Stdlib Require Import ZArith Ascii String List Lia Bool DecimalString.
From stdpp Require Import base option list gmap strings.

Set Warnings "-register-all".

Local Open Scope string_scope.
Local Open Scope list_scope.

(** ** JavaScript values

    Plain data as the code sees it: the OpenAPI document, schema fragments,
    request values.  An object is the list of its own enumerable entries in
    [Object.entries] order; its keys are pairwise distinct.  Numbers are
    integers here: no property below depends on fractions. *)

Inductive JsVal : Type :=
  | JUndefined
  | JNull
  | JBool (b : bool)
  | JNum (n : Z)
  | JStr (s : string)
  | JArr (items : list JsVal)
  | JObj (fields : list (string * JsVal)).

(** [ToBoolean]: what [!x] and [if (x)] look at. *)
Definition truthy (v : JsVal) : bool :=
  match v with
  | JUndefined | JNull => false
  | JBool b => b
  | JNum n => negb (Z.eqb n 0)
  | JStr s => negb (String.eqb s "")
  | JArr _ | JObj _ => true
  end.

(** [a ?? b] *)
Definition nullish (v : JsVal) : bool :=
  match v with JUndefined | JNull => true | _ => false end.

Definition coalesce (a b : JsVal) : JsVal := if nullish a then b else a.

(** Own-property lookup in an entry list (nothing is inherited: the keys
    looked up below are media types, [$ref] and [value]). *)
Fixpoint assoc {A : Type} (k : string) (fields : list (string * A)) : option A :=
  match fields with
  | [] => None
  | (k', v) :: rest => if String.eqb k' k then Some v else assoc k rest
  end.

(** [o[k]] on a record: the entry, or [undefined]. *)
Definition record_get (values : list (string * JsVal)) (k : string) : JsVal :=
  match assoc k values with Some v => v | None => JUndefined end.

(** ** Exceptions and results *)

(** One entry of a validator's [errors] array. *)
Record ErrorObject : Type := mkErrorObject {
  instancePath : string;
  keyword : string;
  message : string
}.

Inductive Exn : Type :=
  | Error (msg : string)
  | TypeError (msg : string)
  | InvalidPtrError (ptr : string)
  | EvalError (token : string)
  | ValidationError (errors : list ErrorObject).

Inductive Result (A : Type) : Type :=
  | Return (a : A)
  | Throw (e : Exn).
Arguments Return {A} a.
Arguments Throw {A} e.

Definition is_throw {A : Type} (r : Result A) : Prop :=
  match r with Throw _ => True | Return _ => False end.

(** ** Strings *)

(** [s.indexOf(c)] for a one-character needle; [None] is [-1]. *)
Fixpoint indexOf (c : ascii) (s : string) : option nat :=
  match s with
  | EmptyString => None
  | String a s' =>
      if Ascii.eqb a c then Some 0
      else match indexOf c s' with Some i => Some (S i) | None => None end
  end.

(** [s.split(c)] for a one-character separator: never empty. *)
Fixpoint split (c : ascii) (s : string) : list string :=
  match s with
  | EmptyString => [""]
  | String a s' =>
      if Ascii.eqb a c then "" :: split c s'
      else match split c s' with
           | h :: t => String a h :: t
           | [] => [String a ""]
           end
  end.

(** [s.startsWith(c)] for a one-character prefix. *)
Definition startsWith (c : ascii) (s : string) : bool :=
  match s with String a _ => Ascii.eqb a c | EmptyString => false end.

(** [s.substring(1)] *)
Definition substring_from_1 (s : string) : string :=
  match s with String _ s' => s' | EmptyString => "" end.

(** [parts.join(c)] *)
Fixpoint join (c : ascii) (parts : list string) : string :=
  match parts with
  | [] => ""
  | [p] => p
  | p :: rest => p +:+ String c (join c rest)
  end.

(** [String(n)] for a natural number. *)
Definition decimal (n : nat) : string := NilEmpty.string_of_uint (Nat.to_uint n).

(** [x] occurs in [s]. *)
Definition mentions (s x : string) : Prop :=
  exists pre post, s = pre +:+ x +:+ post.

(** ** Content-type matching ([pickContentType]) *)

Module ContentType.

(** [a !== b] on array slots: [None] is [undefined]. *)
Definition slot_eqb (a b : option string) : bool :=
  match a, b with
  | Some x, Some y => String.eqb x y
  | None, None => true
  | _, _ => false
  end.

Definition is_star (a : option string) : bool := slot_eqb a (Some "*").

(** The two [continue] tests of the loop body, for one pattern. *)
Definition matches (contentTypeParts : list string) (type : string) : bool :=
  let typeParts := split "/" type in
  (is_star (typeParts !! 0) || slot_eqb (typeParts !! 0) (contentTypeParts !! 0))
  && (is_star (typeParts !! 1) || slot_eqb (typeParts !! 1) (contentTypeParts !! 1)).

(** [localWildcards] *)
Definition wildcards (type : string) : nat :=
  let typeParts := split "/" type in
  (if is_star (typeParts !! 0) then 1 else 0)
  + (if is_star (typeParts !! 1) then 1 else 0).

(** The [for ... of Object.entries(values)] loop, with its [continue]s and
    its [break]; [chosen] and [wildcardsUsed] are the loop's two variables. *)
Fixpoint scan (contentTypeParts : list string) (entries : list (string * JsVal))
         (chosen : JsVal) (wildcardsUsed : nat) : JsVal :=
  match entries with
  | [] => chosen
  | (type, value) :: rest =>
      let typeParts := split "/" type in
      if negb (is_star (typeParts !! 0))
         && negb (slot_eqb (typeParts !! 0) (contentTypeParts !! 0))
      then scan contentTypeParts rest chosen wildcardsUsed
      else if negb (is_star (typeParts !! 1))
              && negb (slot_eqb (typeParts !! 1) (contentTypeParts !! 1))
      then scan contentTypeParts rest chosen wildcardsUsed
      else
        let localWildcards :=
          (if is_star (typeParts !! 0) then 1 else 0)
          + (if is_star (typeParts !! 1) then 1 else 0) in
        if negb (truthy chosen) || Nat.ltb localWildcards wildcardsUsed
        then if Nat.eqb localWildcards 0 then value
             else scan contentTypeParts rest value localWildcards
        else scan contentTypeParts rest chosen wildcardsUsed
  end.

(** The parameter stripping of lines 82-87. *)
Definition strip_parameters (contentType : string) : string :=
  match indexOf ";" contentType with
  | Some semicolon => String.substring 0 semicolon contentType
  | None => contentType
  end.

(** The loop without its [break], as a fold over the entries: the state is
    the wildcard count and value chosen so far, if any. *)
Fixpoint select (contentTypeParts : list string) (entries : list (string * JsVal))
         (current : option (nat * JsVal)) : option (nat * JsVal) :=
  match entries with
  | [] => current
  | (type, value) :: rest =>
      if matches contentTypeParts type then
        match current with
        | Some (used, _) =>
            if Nat.ltb (wildcards type) used
            then select contentTypeParts rest (Some (wildcards type, value))
            else select contentTypeParts rest current
        | None => select contentTypeParts rest (Some (wildcards type, value))
        end
      else select contentTypeParts rest current
  end.

(** How the loop's two variables stand for the fold's state. *)
Definition tracks (current : option (nat * JsVal)) (chosen : JsVal) (used : nat) : Prop :=
  match current with
  | None => chosen = JNull
  | Some (u, v) => chosen = v /\ used = u /\ truthy v = true
  end.

Definition pickContentType (contentType : option string)
           (values : list (string * JsVal)) : JsVal :=
  let contentType :=
    match contentType with Some "" => None | other => other end in
  let contentType :=
    match contentType with
    | Some ct => Some (strip_parameters ct)
    | None => None
    end in
  match contentType with
  | None | Some "" => coalesce (record_get values "*/*") JNull
  | Some ct => scan (split "/" ct) values JNull 0
  end.

(** The matcher's contract in the design document's words: parameters
    after a semicolon are dropped; a pattern matches when each of its two
    halves is the observed half or a star; the value returned belongs to a
    matching pattern with the fewest starred halves; an exact match wins
    and nothing after it is looked at; with nothing observed only the
    all-star pattern counts. *)
Definition best_match_contract (contentType : option string)
           (values : list (string * JsVal)) : Prop :=
  let observed := default "" contentType in
  let base := strip_parameters observed in
  let parts := split "/" base in
  (indexOf ";" base = None
   /\ (observed = base \/ exists params, observed = base +:+ String ";" params))
  /\ (forall type,
        matches parts type = true <->
        (split "/" type !! 0 = Some "*" \/ split "/" type !! 0 = parts !! 0)
        /\ (split "/" type !! 1 = Some "*" \/ split "/" type !! 1 = parts !! 1))
  /\ (base = "" ->
      pickContentType contentType values
      = match assoc "*/*" values with
        | Some v => if nullish v then JNull else v
        | None => JNull
        end)
  /\ (base <> "" ->
      ((forall e, e ∈ values -> matches parts e.1 = false) ->
       pickContentType contentType values = JNull)
      /\ (forall e, e ∈ values -> matches parts e.1 = true ->
          exists k v, (k, v) ∈ values /\ matches parts k = true
            /\ pickContentType contentType values = v
            /\ forall e', e' ∈ values -> matches parts e'.1 = true ->
                  wildcards k <= wildcards e'.1)
      /\ (forall pre k v post,
            values = pre ++ (k, v) :: post ->
            matches parts k = true -> wildcards k = 0 ->
            (forall e, e ∈ pre -> matches parts e.1 = true -> 0 < wildcards e.1) ->
            forall post', pickContentType contentType (pre ++ (k, v) :: post') = v)).

End ContentType.


(** ** Reference resolution ([resolveReference]) *)

Definition dquote : string := String (ascii_of_nat 34) EmptyString.

(** The JSON-pointer package the resolver imports: [Ptr.parse] and
    [ptr.eval], both of which may throw. *)
Class JsonPointer : Type := {
  Ptr : Type;
  Ptr_parse : string -> Result Ptr;
  Ptr_eval : Ptr -> JsVal -> Result JsVal
}.

Section Reference.
Context `{pointers : !JsonPointer}.

(** [value] is typed [T | ReferenceObject] with [T extends object]: on a
    primitive the [in] operator throws, and a [$ref] that is not a string
    has no [startsWith]. *)
Definition resolveReference (spec value : JsVal) : Result JsVal :=
  match value with
  | JObj fields =>
      match assoc "$ref" fields with
      | Some (JStr ref) =>
          if negb (startsWith "#" ref)
          then Throw (Error ("Cannot resolve external reference " +:+ dquote +:+ ref
                             +:+ dquote +:+ " in the OpenAPI schema."))
          else
            match Ptr_parse (substring_from_1 ref) with
            | Throw e => Throw e
            | Return ptr =>
                match Ptr_eval ptr spec with
                | Return target => Return target
                | Throw _ => Return JNull
                end
            end
      | Some _ => Throw (TypeError "value.$ref.startsWith is not a function")
      | None => Return value
      end
  | JArr _ => Return value
  | _ => Throw (TypeError "Cannot use 'in' operator to search for '$ref'")
  end.

End Reference.

(** The pointer package as published (RFC 6901): the empty string is the
    whole document, any other pointer must start with a slash, every token
    walks one own property down. *)
Module Rfc6901.

(** [~1] is a slash, [~0] a tilde. *)
Fixpoint unescape (token : string) : string :=
  match token with
  | String "~" (String "1" rest) => String "/" (unescape rest)
  | String "~" (String "0" rest) => String "~" (unescape rest)
  | String a rest => String a (unescape rest)
  | EmptyString => EmptyString
  end.

Definition parse (s : string) : Result (list string) :=
  if String.eqb s "" then Return []
  else match split "/" s with
       | first :: rest =>
           if String.eqb first "" then Return (map unescape rest)
           else Throw (InvalidPtrError s)
       | [] => Throw (InvalidPtrError s)
       end.

(** The array index a token spells, below [len]. *)
Fixpoint index_named (token : string) (len : nat) : option nat :=
  match len with
  | O => None
  | S i => if String.eqb (decimal i) token then Some i else index_named token i
  end.

(** [instance.hasOwnProperty(token)] then [instance[token]]. *)
Definition step (instance : JsVal) (token : string) : Result JsVal :=
  match instance with
  | JObj fields =>
      match assoc token fields with
      | Some v => Return v
      | None => Throw (EvalError token)
      end
  | JArr items =>
      if String.eqb token "length" then Return (JNum (Z.of_nat (length items)))
      else match index_named token (length items) with
           | Some i => Return (default JUndefined (items !! i))
           | None => Throw (EvalError token)
           end
  | JStr s =>
      if String.eqb token "length" then Return (JNum (Z.of_nat (String.length s)))
      else match index_named token (String.length s) with
           | Some i => Return (JStr (String.substring i 1 s))
           | None => Throw (EvalError token)
           end
  | JNum _ | JBool _ => Throw (EvalError token)
  | JUndefined | JNull => Throw (TypeError "Cannot read properties of null")
  end.

Fixpoint eval (tokens : list string) (instance : JsVal) : Result JsVal :=
  match tokens with
  | [] => Return instance
  | token :: rest =>
      match step instance token with
      | Return next => eval rest next
      | Throw e => Throw e
      end
  end.

Definition package : JsonPointer :=
  {| Ptr := list string; Ptr_parse := parse; Ptr_eval := eval |}.

End Rfc6901.

(** ** The handler factory ([createMethodHandlerFromSpec]) *)

(** *** Controllers, handlers and the binding extension *)

Record Symbol : Type := mkSymbol { symbol_id : nat; description : string }.

Inductive PropertyKey : Type :=
  | KString (s : string)
  | KSymbol (y : Symbol).

#[global] Instance Symbol_eq_dec : EqDecision Symbol.
Proof. solve_decision. Defined.

#[global] Instance PropertyKey_eq_dec : EqDecision PropertyKey.
Proof. solve_decision. Defined.

Definition key_eqb (a b : PropertyKey) : bool := bool_decide (a = b).

(** A function value, known by reference. *)
Inductive Callable : Type := Fn (ref : string).

(** What a property read on a controller yields. *)
Inductive Member : Type :=
  | MCallable (f : Callable)
  | MData (v : JsVal).

(** A controller object: every property a read can reach (own or inherited). *)
Record ControllerInstance : Type := mkController {
  members : list (PropertyKey * Member)
}.

Fixpoint member_get (k : PropertyKey) (ms : list (PropertyKey * Member)) : option Member :=
  match ms with
  | [] => None
  | (k', m) :: rest => if key_eqb k' k then Some m else member_get k rest
  end.

(** [controller: string | symbol | object] *)
Inductive ControllerRef : Type :=
  | ControllerKey (s : string)
  | ControllerSymbol (y : Symbol)
  | ControllerObject (c : ControllerInstance).

(** [handler: string | symbol | Function] *)
Inductive HandlerRef : Type :=
  | HandlerKey (s : string)
  | HandlerSymbol (y : Symbol)
  | HandlerFunction (f : Callable).

Definition String_of_symbol (y : Symbol) : string :=
  "Symbol(" +:+ description y +:+ ")".

(** [String(controller)] *)
Definition String_of_controller (c : ControllerRef) : string :=
  match c with
  | ControllerKey s => s
  | ControllerSymbol y => String_of_symbol y
  | ControllerObject _ => "[object Object]"
  end.

(** [String(method)] *)
Definition String_of_handler (h : HandlerRef) : string :=
  match h with
  | HandlerKey s => s
  | HandlerSymbol y => String_of_symbol y
  | HandlerFunction (Fn ref) => "function " +:+ ref
  end.

(** A template-literal slot holding [string | undefined]. *)
Definition interpolate (o : option string) : string := default "undefined" o.

(** One argument descriptor; [arg_type] is its [type] tag. *)
Record SOCControllerMethodHandlerArg : Type := mkArg {
  arg_type : string;
  parameterName : option string
}.

Record SOCControllerMethodExtensionData : Type := mkExtension {
  ext_controller : ControllerRef;
  ext_handler : HandlerRef;
  ext_handlerArgs : option (list SOCControllerMethodHandlerArg);
  ext_handlerMiddleware : option (list Callable);
  ext_preExpressMiddleware : option (list Callable)
}.

(** An operation object: its id, and the binding extension if it has one.
    The document is typed: a path item, an operation or an extension is
    either there or [undefined], which is what the factory's [!x] tests
    tell apart; lookups see own entries only. *)
Record OperationObject : Type := mkOperation {
  operationId : option string;
  extension : option SOCControllerMethodExtensionData
}.

(** A path item maps request methods ([get], [post], ...) to operations. *)
Record OpenAPIObject : Type := mkSpec {
  paths : option (gmap string (gmap string OperationObject))
}.

Record OperationContext : Type := mkContext {
  ctx_spec : OpenAPIObject;
  ctx_path : string;
  ctx_method : string;
  ctx_pathItem : gmap string OperationObject;
  ctx_operation : OperationObject
}.

(** *** The validation engine *)

(** One call of a compiled validator: the verdict, the instance as the call
    left it (coercion rewrites it in place), and [validate.errors]. *)
Record ValidationOutcome : Type := mkOutcome {
  valid : bool;
  data : JsVal;
  errors : list ErrorObject
}.

Definition ValidateFunction : Type := JsVal -> ValidationOutcome.

(** The engine instance handed to the factory: code generation for a schema
    (which may reject it) and [errorsText]. *)
Record AJV : Type := mkAJV {
  codegen : JsVal -> Result ValidateFunction;
  errorsText : list ErrorObject -> string
}.

(** What the factory imports from the rest of the package: the extension's
    name, the compiled validator of the extension's own schema with the
    [errors] a failed call leaves, and the type of request-data processors. *)
Class Package : Type := {
  RequestDataProcessor : Type;
  SOCControllerMethodExtensionName : string;
  validateSOCControllerMethodExtensionData : SOCControllerMethodExtensionData -> bool;
  validateSOCControllerMethodExtensionData_errors :
    SOCControllerMethodExtensionData -> list ErrorObject
}.

(** *** Build-time state

    Objects have identity: every object literal is a new one.  The engine
    keeps the validators it has compiled, keyed by the schema object. *)
Record World : Type := mkWorld {
  next_object : nat;
  ajv_cache : gmap nat ValidateFunction;
  compilations : nat
}.

Definition M (A : Type) : Type := World -> Result A * World.

Definition ret {A : Type} (a : A) : M A := fun w => (Return a, w).
Definition throw {A : Type} (e : Exn) : M A := fun w => (Throw e, w).
Definition bind {A B : Type} (m : M A) (k : A -> M B) : M B :=
  fun w => match m w with
           | (Return a, w') => k a w'
           | (Throw e, w') => (Throw e, w')
           end.
Definition lift {A : Type} (r : Result A) : M A := fun w => (r, w).

Notation "'let!' x ':=' m 'in' k" := (bind m (fun x => k))
  (at level 10, x name, m at level 100, k at level 200).

(** An object literal: a fresh identity. *)
Definition new_object : M nat :=
  fun w => (Return (next_object w),
            mkWorld (S (next_object w)) (ajv_cache w) (compilations w)).

(** [ajv.compile(schema)] for the schema object [ref] with contents [schema].
    What the engine keeps of a schema it rejects is not modelled: nothing
    below depends on the state a throwing call leaves. *)
Definition ajv_compile (ajv : AJV) (ref : nat) (schema : JsVal) : M ValidateFunction :=
  fun w => match ajv_cache w !! ref with
           | Some validate => (Return validate, w)
           | None =>
               match codegen ajv schema with
               | Return validate =>
                   (Return validate,
                    mkWorld (next_object w) (<[ref := validate]> (ajv_cache w))
                            (S (compilations w)))
               | Throw e => (Throw e, w)
               end
           end.

Fixpoint mapM {A B : Type} (f : A -> M B) (l : list A) : M (list B) :=
  match l with
  | [] => ret []
  | a :: rest => let! b := f a in let! bs := mapM f rest in ret (b :: bs)
  end.

(** [obj.key] on a value. *)
Definition prop_get (obj : JsVal) (k : string) : JsVal :=
  match obj with JObj fields => record_get fields k | _ => JUndefined end.

Definition ValueProcessor : Type := JsVal -> Result JsVal.

Definition wrapSchema (schema : JsVal) : JsVal :=
  JObj [("type", JStr "object"); ("properties", JObj [("value", schema)])].

Definition wrapValue (value : JsVal) : JsVal := JObj [("value", value)].

(** The closure [createValueProcessor] of lines 115-135. *)
Definition createValueProcessor (ajv : AJV) (schema : JsVal) : M ValueProcessor :=
  let! wrappedRef := new_object in
  let wrappedSchema := wrapSchema schema in
  let! validate := ajv_compile ajv wrappedRef wrappedSchema in
  ret (fun value =>
         let wrapper := wrapValue value in
         let outcome := validate wrapper in
         if negb (valid outcome)
         then Throw (ValidationError (errors outcome))
         else Return (prop_get (data outcome) "value")).

(** Every schema object the engine remembers was allocated earlier. *)
Definition world_ok (w : World) : Prop :=
  forall ref, is_Some (ajv_cache w !! ref) -> ref < next_object w.

(** The design document's reading of the reported paths: the leading
    [/value] segment of the wrapper taken off. *)
Definition strip_value_segment (path : string) : string :=
  if String.prefix "/value" path
  then String.substring 6 (String.length path - 6) path
  else path.

(** *** The default resolvers *)

(** lodash [isFunction] on a handler reference. *)
Definition isFunction (method : HandlerRef) : bool :=
  match method with HandlerFunction _ => true | _ => false end.

Definition defaultResolveController (controller : ControllerRef) (ctx : OperationContext)
  : Result ControllerInstance :=
  match controller with
  | ControllerObject c => Return c
  | _ =>
      Throw (Error ("Controller for operation " +:+ interpolate (operationId (ctx_operation ctx))
                    +:+ " handling " +:+ dquote +:+ ctx_method ctx +:+ " " +:+ ctx_path ctx
                    +:+ dquote +:+ " is not an object (got " +:+ String_of_controller controller
                    +:+ ")."))
  end.

(** [controller[method]] when [method] is a string or a symbol. *)
Definition lookup_method (controller : ControllerInstance) (method : HandlerRef)
  : option Member :=
  match method with
  | HandlerKey s => member_get (KString s) (members controller)
  | HandlerSymbol y => member_get (KSymbol y) (members controller)
  | HandlerFunction _ => None
  end.

Definition defaultResolveHandler (controller : ControllerInstance) (method : HandlerRef)
           (ctx : OperationContext) : Result Callable :=
  let method :=
    match method, lookup_method controller method with
    | (HandlerKey _ | HandlerSymbol _), Some (MCallable f) => HandlerFunction f
    | _, _ => method
    end in
  match method with
  | HandlerFunction f => Return f
  | _ =>
      Throw (Error ("Handler for operation " +:+ dquote
                    +:+ interpolate (operationId (ctx_operation ctx)) +:+ dquote
                    +:+ " handling " +:+ dquote +:+ String_of_handler method +:+ " "
                    +:+ ctx_path ctx +:+ dquote +:+ " is not a function (got "
                    +:+ String_of_handler method +:+ ")."))
  end.

(** *** The factory *)

Section Factory.
Context `{package : !Package}.

(** What every processor factory is called with. *)
Record FactoryContext : Type := mkFactoryContext {
  fc_spec : OpenAPIObject;
  fc_path : string;
  fc_method : string;
  fc_pathItem : gmap string OperationObject;
  fc_operation : OperationObject;
  fc_controller : ControllerInstance;
  fc_handler : Callable;
  fc_createValueProcessor : JsVal -> M ValueProcessor
}.

(** A factory's result as the [isNotNullOrUndefined] filter sorts it: a
    processor the filter keeps, or ([None]) a value it removes. *)
Definition RequestDataProcessorFactory : Type :=
  FactoryContext -> M (option RequestDataProcessor).

Record CreateMethodHandlerOpts : Type := mkOpts {
  resolveController :
    option (ControllerRef -> OperationContext -> Result ControllerInstance);
  resolveHandler :
    option (ControllerInstance -> HandlerRef -> OperationContext -> Result Callable);
  requestDataProcessorFactories : option (list RequestDataProcessorFactory);
  handlerMiddleware : option (list Callable);
  preExpressMiddleware : option (list Callable);
  postExpressMiddleware : option (list Callable)
}.

Record MethodHandlerContext : Type := mkHandlerContext {
  hc_spec : OpenAPIObject;
  hc_path : string;
  hc_method : string;
  hc_pathItem : gmap string OperationObject;
  hc_operation : OperationObject;
  hc_controller : ControllerInstance;
  hc_handler : Callable
}.

(** The arguments [new MethodHandler(...)] is given, in order. *)
Record MethodHandler : Type := mkMethodHandler {
  mh_controller : ControllerInstance;
  mh_handler : Callable;
  mh_handlerArgs : list SOCControllerMethodHandlerArg;
  mh_processors : list RequestDataProcessor;
  mh_handlerMiddleware : list Callable;
  mh_preExpressMiddleware : list Callable;
  mh_postExpressMiddleware : list Callable;
  mh_context : MethodHandlerContext
}.

Definition createMethodHandlerFromSpec (spec : OpenAPIObject) (path : string)
           (method : string) (ajv : AJV) (opts : CreateMethodHandlerOpts)
  : M MethodHandler :=
  match default ∅ (paths spec) !! path with
  | None => throw (Error ("Path " +:+ path +:+ " not found in spec."))
  | Some pathItem =>
  match pathItem !! method with
  | None => throw (Error ("Operation " +:+ method +:+ " not found on path " +:+ path +:+ "."))
  | Some operation =>
  match extension operation with
  | None =>
      throw (Error ("Operation " +:+ interpolate (operationId operation)
                    +:+ " is missing the " +:+ SOCControllerMethodExtensionName
                    +:+ " extension."))
  | Some extensionData =>
  if negb (validateSOCControllerMethodExtensionData extensionData)
  then throw (Error ("Operation " +:+ interpolate (operationId operation)
                     +:+ " has an invalid " +:+ SOCControllerMethodExtensionName
                     +:+ " extension: "
                     +:+ errorsText ajv
                           (validateSOCControllerMethodExtensionData_errors extensionData)
                     +:+ "}"))
  else
    let resolveController :=
      default defaultResolveController (resolveController opts) in
    let resolveHandler := default defaultResolveHandler (resolveHandler opts) in
    let ctx := mkContext spec path method pathItem operation in
    let! controller := lift (resolveController (ext_controller extensionData) ctx) in
    let! handler := lift (resolveHandler controller (ext_handler extensionData) ctx) in
    let! produced :=
      mapM (fun factory : RequestDataProcessorFactory =>
              factory (mkFactoryContext spec path method pathItem operation
                         controller handler (createValueProcessor ajv)))
           (default [] (requestDataProcessorFactories opts)) in
    let processors := omap id produced in
    let context :=
      mkHandlerContext spec path method pathItem operation controller handler in
    let handlerMiddleware :=
      default [] (handlerMiddleware opts)
      ++ default [] (ext_handlerMiddleware extensionData) in
    let preExpressMiddleware :=
      default [] (preExpressMiddleware opts)
      ++ default [] (ext_preExpressMiddleware extensionData) in
    let postExpressMiddleware := default [] (postExpressMiddleware opts) in
    ret (mkMethodHandler controller handler
           (default [] (ext_handlerArgs extensionData))
           processors handlerMiddleware preExpressMiddleware postExpressMiddleware
           context)
  end end end.

End Factory.

(** ** Argument descriptors on method metadata ([setMethodParameterType]) *)

(** [String(propertyKey)] *)
Definition String_of_key (k : PropertyKey) : string :=
  match k with KString s => s | KSymbol y => String_of_symbol y end.

(** One index of a JavaScript array below its length: a hole (no own
    entry), an own entry holding [undefined], or an own entry holding a
    value. *)
Inductive Slot (A : Type) : Type :=
  | Hole
  | Undefined
  | Item (a : A).
Arguments Hole {A}.
Arguments Undefined {A}.
Arguments Item {A} a.

(** The metadata of one method: the argument list (a JavaScript array) and
    whatever else the record holds. *)
Record SOCControllerMethodMetadata : Type := mkMetadata {
  args : option (list (Slot SOCControllerMethodHandlerArg));
  others : list (string * JsVal)
}.

Definition emptyMetadata : SOCControllerMethodMetadata := mkMetadata None [].

(** [a[i]]: a hole, an [undefined] entry and an index past the end all read
    [undefined]. *)
Definition js_array_get {A : Type} (a : list (Slot A)) (i : nat) : option A :=
  match a !! i with Some (Item x) => Some x | _ => None end.

(** [[...a]]: the copy has an own [undefined] entry where [a] has a hole. *)
Definition js_array_copy {A : Type} (a : list (Slot A)) : list (Slot A) :=
  map (fun slot => match slot with Hole => Undefined | other => other end) a.

(** [a[i] = x]: past the end the array grows, leaving holes. *)
Definition js_array_set {A : Type} (a : list (Slot A)) (i : nat) (x : A)
  : list (Slot A) :=
  if decide (i < length a) then <[i := Item x]> a
  else a ++ replicate (i - length a) Hole ++ [Item x].

(** [args[parameterIndex]?.type] as a condition. *)
Definition typed_at (a : list (Slot SOCControllerMethodHandlerArg)) (i : nat) : bool :=
  match js_array_get a i with
  | Some d => negb (String.eqb (arg_type d) "")
  | None => false
  end.

(** The updater closure of lines 51-66. *)
Definition setMethodParameterType_updater (propertyKey : PropertyKey)
           (parameterIndex : nat) (arg : SOCControllerMethodHandlerArg)
           (previous : SOCControllerMethodMetadata)
  : Result SOCControllerMethodMetadata :=
  let args' := js_array_copy (default [] (args previous)) in
  if typed_at args' parameterIndex
  then Throw (Error ("Method handler " +:+ String_of_key propertyKey
                     +:+ " cannot redefine the parameter type at index "
                     +:+ decimal parameterIndex +:+ "."))
  else Return (mkMetadata (Some (js_array_set args' parameterIndex arg))
                          (others previous)).

(** The metadata module the helper imports: where method metadata lives, and
    [mergeSOCControllerMethodMetadata] in its updater form. *)
Class MetadataModule : Type := {
  Store : Type;
  getMetadata : Store -> nat -> PropertyKey -> SOCControllerMethodMetadata;
  mergeSOCControllerMethodMetadata :
    Store -> nat -> (SOCControllerMethodMetadata -> Result SOCControllerMethodMetadata)
    -> PropertyKey -> Result Store
}.

(** What the helper relies on: the merge hands the method's current metadata
    (an empty record when there is none) to the updater, lets the updater's
    exception escape, and otherwise stores what the updater returned for that
    method and no other. *)
Definition merge_applies_updater (metadata : MetadataModule) : Prop :=
  forall s target f k,
    match f (getMetadata s target k) with
    | Throw e => mergeSOCControllerMethodMetadata s target f k = Throw e
    | Return md =>
        exists s', mergeSOCControllerMethodMetadata s target f k = Return s'
                   /\ getMetadata s' target k = md
                   /\ forall target' k', (target', k') <> (target, k) ->
                        getMetadata s' target' k' = getMetadata s target' k'
    end.

Section Decorators.
Context `{metadata : !MetadataModule}.

Definition setMethodParameterType (s : Store) (target : nat) (propertyKey : PropertyKey)
           (parameterIndex : nat) (arg : SOCControllerMethodHandlerArg) : Result Store :=
  mergeSOCControllerMethodMetadata s target
    (setMethodParameterType_updater propertyKey parameterIndex arg) propertyKey.

(** The argument list a method carries. *)
Definition args_of (s : Store) (target : nat) (propertyKey : PropertyKey)
  : list (Slot SOCControllerMethodHandlerArg) :=
  default [] (args (getMetadata s target propertyKey)).

End Decorators.

(** Metadata kept in a table indexed by target and property key. *)
Module TableStore.

Definition table : Type := nat -> PropertyKey -> SOCControllerMethodMetadata.

Definition empty : table := fun _ _ => emptyMetadata.

Definition merge (s : table) (target : nat)
           (f : SOCControllerMethodMetadata -> Result SOCControllerMethodMetadata)
           (k : PropertyKey) : Result table :=
  match f (s target k) with
  | Throw e => Throw e
  | Return md =>
      Return (fun target' k' =>
                if bool_decide ((target', k') = (target, k)) then md else s target' k')
  end.

Definition module : MetadataModule :=
  {| Store := table;
     getMetadata s target k := s target k;
     mergeSOCControllerMethodMetadata := merge |}.

End TableStore.

(** ** A small validation engine

    An engine for the [type] and [properties] keywords with type coercion
    switched on, reporting the first failure only.  It stands in for the
    real engine in the worked examples; the general statements below hold
    for every engine. *)
Module SmallEngine.

Definition digit (a : ascii) : option Z :=
  let n := nat_of_ascii a in
  if (48 <=? n)%nat && (n <=? 57)%nat then Some (Z.of_nat (n - 48)) else None.

Fixpoint digits (s : string) (acc : Z) : option Z :=
  match s with
  | EmptyString => Some acc
  | String a rest =>
      match digit a with
      | Some d => digits rest (10 * acc + d)%Z
      | None => None
      end
  end.

(** A string that spells an integer. *)
Definition number_of_string (s : string) : option Z :=
  match s with
  | EmptyString => None
  | String "-" (String a rest) => Z.opp <$> digits (String a rest) 0%Z
  | _ => digits s 0%Z
  end.

(** The value as the [type] keyword leaves it, or [None] when it fails. *)
Definition coerce (type : string) (v : JsVal) : option JsVal :=
  if String.eqb type "number" || String.eqb type "integer" then
    match v with
    | JNum _ => Some v
    | JStr s => JNum <$> number_of_string s
    | _ => None
    end
  else if String.eqb type "string" then
    match v with JStr _ => Some v | _ => None end
  else if String.eqb type "boolean" then
    match v with
    | JBool _ => Some v
    | JStr s => if String.eqb s "true" then Some (JBool true)
                else if String.eqb s "false" then Some (JBool false) else None
    | _ => None
    end
  else if String.eqb type "object" then
    match v with JObj _ => Some v | _ => None end
  else if String.eqb type "array" then
    match v with JArr _ => Some v | _ => None end
  else if String.eqb type "null" then
    match v with JNull => Some v | _ => None end
  else None.

Fixpoint set_field (k : string) (x : JsVal) (fields : list (string * JsVal))
  : list (string * JsVal) :=
  match fields with
  | [] => []
  | (k', v) :: rest =>
      if String.eqb k' k then (k', x) :: rest else (k', v) :: set_field k x rest
  end.

Fixpoint validate (schema : JsVal) (path : string) (v : JsVal) {struct schema}
  : ValidationOutcome :=
  match schema with
  | JObj keywords =>
      let typed :=
        match assoc "type" keywords with
        | Some (JStr type) => coerce type v
        | _ => Some v
        end in
      match typed with
      | None =>
          mkOutcome false v
            [mkErrorObject path "type"
               ("must be " +:+ match assoc "type" keywords with
                               | Some (JStr type) => type
                               | _ => ""
                               end)]
      | Some v1 =>
          (fix walk (kws : list (string * JsVal)) : ValidationOutcome :=
             match kws with
             | [] => mkOutcome true v1 []
             | (kw, arg) :: rest =>
                 if String.eqb kw "properties" then
                   match arg, v1 with
                   | JObj props, JObj entries =>
                       (fix each (ps : list (string * JsVal))
                            (entries : list (string * JsVal)) : ValidationOutcome :=
                          match ps with
                          | [] => mkOutcome true (JObj entries) []
                          | (k, sub) :: ps' =>
                              match assoc k entries with
                              | None => each ps' entries
                              | Some x =>
                                  let o := validate sub (path +:+ "/" +:+ k) x in
                                  if valid o
                                  then each ps' (set_field k (data o) entries)
                                  else mkOutcome false (JObj entries) (errors o)
                              end
                          end) props entries
                   | _, _ => mkOutcome true v1 []
                   end
                 else walk rest
             end) keywords
      end
  | JBool false => mkOutcome false v [mkErrorObject path "false schema" "boolean schema is false"]
  | _ => mkOutcome true v []
  end.

Definition compile (schema : JsVal) : Result ValidateFunction :=
  Return (fun v => validate schema "" v).

Definition text (errs : list ErrorObject) : string :=
  join "," (map (fun e => "data" +:+ instancePath e +:+ " " +:+ message e) errs).

Definition ajv : AJV := mkAJV compile text.

End SmallEngine.

(** ** Worked inputs *)
Module Sample.

Definition world0 : World := mkWorld 0 ∅ 0.

Definition number_schema : JsVal := JObj [("type", JStr "number")].

(** A document with one schema component. *)
Definition document : JsVal :=
  JObj [("components",
         JObj [("schemas",
                JObj [("Pet", JObj [("type", JStr "object")]);
                      ("Alias", JObj [("$ref", JStr "#/components/schemas/Pet")])])])].

Definition reference (ref : string) : JsVal := JObj [("$ref", JStr ref)].

(** A package whose processors are value processors and whose extension
    schema asks every argument descriptor for a type tag. *)
Definition package : Package :=
  {| RequestDataProcessor := ValueProcessor;
     SOCControllerMethodExtensionName := "x-simply-controller-method";
     validateSOCControllerMethodExtensionData ext :=
       forallb (fun a => negb (String.eqb (arg_type a) ""))
               (default [] (ext_handlerArgs ext));
     validateSOCControllerMethodExtensionData_errors ext :=
       if forallb (fun a => negb (String.eqb (arg_type a) ""))
                  (default [] (ext_handlerArgs ext))
       then []
       else [mkErrorObject "/handlerArgs" "required" "must have required property 'type'"]
  |}.

Definition pets : ControllerInstance :=
  mkController [(KString "list", MCallable (Fn "PetsController.list"));
                (KString "limit", MData (JNum 10))].

Definition listPets : OperationObject :=
  mkOperation (Some "listPets")
    (Some (mkExtension (ControllerObject pets) (HandlerKey "list")
             (Some [mkArg "openapi-parameter" (Some "limit")])
             (Some [Fn "B"]) (Some [Fn "auth"]))).

(** [addPet] names its controller by key; [removePet] names a handler the
    controller does not have; [brokenPet] has an untyped argument. *)
Definition addPet : OperationObject :=
  mkOperation (Some "addPet")
    (Some (mkExtension (ControllerKey "pets") (HandlerKey "add") None None None)).

Definition removePet : OperationObject :=
  mkOperation (Some "removePet")
    (Some (mkExtension (ControllerObject pets) (HandlerKey "limit") None None None)).

Definition brokenPet : OperationObject :=
  mkOperation (Some "brokenPet")
    (Some (mkExtension (ControllerObject pets) (HandlerKey "list")
             (Some [mkArg "" None]) None None)).

Definition unboundPet : OperationObject := mkOperation (Some "unboundPet") None.

Definition petstore : OpenAPIObject :=
  mkSpec (Some {[ "/pets" := {[ "get" := listPets; "post" := addPet;
                                 "delete" := removePet; "put" := brokenPet;
                                 "patch" := unboundPet ]} ]}).

(** One factory that builds a processor for numbers, one that declines. *)
Definition options : CreateMethodHandlerOpts (package := package) :=
  mkOpts (package := package) None None
    (Some [fun fc => let! p := fc_createValueProcessor fc number_schema in ret (Some p);
           fun _ => ret None])
    (Some [Fn "A"]) None (Some [Fn "log"]).

Definition queryArg (name : string) : SOCControllerMethodHandlerArg :=
  mkArg "openapi-parameter" (Some name).

Definition context (operation : OperationObject) (method : string) : OperationContext :=
  mkContext petstore "/pets" method
    {[ "get" := listPets; "post" := addPet; "delete" := removePet;
       "put" := brokenPet; "patch" := unboundPet ]} operation.

(** Two registered media types, as in the design document's example. *)
Definition media : list (string * JsVal) :=
  [("application/json", JStr "json body"); ("text/*", JStr "text body")].

(** A mapping whose first value is falsy. *)
Definition falsy_media : list (string * JsVal) :=
  [("text/*", JNum 0); ("*/*", JNum 7)].

(** Two equally specific patterns, the first with a falsy value. *)
Definition tied_falsy_media : list (string * JsVal) :=
  [("text/*", JNum 0); ("*/plain", JStr "later")].

(** Two equally specific patterns with truthy values. *)
Definition tied_media : list (string * JsVal) :=
  [("*/*", JStr "any"); ("text/*", JStr "first"); ("*/plain", JStr "later")].

End Sample.

(** ** Schema type queries ([getTypes] and its callers) *)

Module SchemaTypes.

(** [v.key], read: [null] and [undefined] have no properties; the keys read
    below ([type], [oneOf], [anyOf]) exist on objects only. *)
Definition read (v : JsVal) (k : string) : Result JsVal :=
  match v with
  | JObj fields => Return (record_get fields k)
  | JUndefined | JNull => Throw (TypeError "Cannot read properties of undefined")
  | _ => Return JUndefined
  end.

(** [Array.isArray(t) ? t : [t]] *)
Definition as_list (t : JsVal) : list JsVal :=
  match t with JArr items => items | _ => [t] end.

(** What [for (const item of v)] visits. *)
Definition iterate (v : JsVal) : Result (list JsVal) :=
  match v with
  | JArr items => Return items
  | JStr s => Return (map (fun c => JStr (String c "")) (list_ascii_of_string s))
  | _ => Throw (TypeError "is not iterable")
  end.

(** The body of either loop: what one member pushes. *)
Definition member_types (item : JsVal) : Result (list JsVal) :=
  match read item "type" with
  | Throw e => Throw e
  | Return t => Return (if truthy t then as_list t else [])
  end.

Fixpoint collect (items : list JsVal) : Result (list JsVal) :=
  match items with
  | [] => Return []
  | item :: rest =>
      match member_types item with
      | Throw e => Throw e
      | Return pushed =>
          match collect rest with
          | Throw e => Throw e
          | Return more => Return (pushed ++ more)
          end
      end
  end.

(** [if (schema[k]) { for (const item of schema[k]) ... }] *)
Definition alternatives (schema : JsVal) (k : string) : Result (list JsVal) :=
  match read schema k with
  | Throw e => Throw e
  | Return alts =>
      if truthy alts
      then match iterate alts with
           | Throw e => Throw e
           | Return items => collect items
           end
      else Return []
  end.

Definition getTypes (schema : JsVal) : Result (list JsVal) :=
  match read schema "type" with
  | Throw e => Throw e
  | Return t =>
      let own := if truthy t then as_list t else [] in
      match alternatives schema "oneOf" with
      | Throw e => Throw e
      | Return one =>
          match alternatives schema "anyOf" with
          | Throw e => Throw e
          | Return any => Return (own ++ one ++ any)
          end
      end
  end.

(** [types.includes(type)] for a type name. *)
Definition includes (types : list JsVal) (type : string) : bool :=
  existsb (fun x => match x with JStr s => String.eqb s type | _ => false end) types.

Definition schemaIncludesType (schema : JsVal) (type : string) : Result bool :=
  match getTypes schema with
  | Throw e => Throw e
  | Return types => Return (includes types type)
  end.

Definition schemaIncludesAnyTypeExcept (schema : JsVal) (type : string) : Result bool :=
  match getTypes schema with
  | Throw e => Throw e
  | Return types => Return (negb (includes types type) || Nat.ltb 1 (length types))
  end.

Definition getSchemaSingleTypeOrNull (schema : JsVal) : Result JsVal :=
  match read schema "type" with
  | Throw e => Throw e
  | Return t => Return (match t with JArr _ => JNull | _ => t end)
  end.

(** The types a schema names in its own [type] keyword. *)
Definition declared (schema : JsVal) : list JsVal :=
  let t := prop_get schema "type" in
  if truthy t then as_list t else [].

(** The members listed under [oneOf] or [anyOf], when it is an array. *)
Definition members_of (schema : JsVal) (k : string) : list JsVal :=
  match prop_get schema k with JArr items => items | _ => [] end.

(** A keyword typed as the schema type has it: absent, or an array of
    schema objects. *)
Definition schema_array (v : JsVal) : Prop :=
  v = JUndefined
  \/ exists items, v = JArr items /\ Forall (fun item => exists fs, item = JObj fs) items.

End SchemaTypes.

(** ** The parameter decorator ([createParameterDecorator]) *)

(** [{ ...base, ...extra }]: a key of [extra] already in [base] takes the
    new value in its old place, a new key goes to the end. *)
Fixpoint assign_key (k : string) (x : JsVal) (fields : list (string * JsVal))
  : list (string * JsVal) :=
  match fields with
  | [] => [(k, x)]
  | (k', v) :: rest =>
      if String.eqb k' k then (k', x) :: rest else (k', v) :: assign_key k x rest
  end.

Definition spread (base extra : list (string * JsVal)) : list (string * JsVal) :=
  fold_left (fun acc e => assign_key e.1 e.2 acc) extra base.

(** [{ in: paramIn, name, ...paramObject }] *)
Definition parameter_object (name paramIn : string) (paramObject : list (string * JsVal))
  : list (string * JsVal) :=
  spread [("in", JStr paramIn); ("name", JStr name)] paramObject.

(** The fragment the decorator merges into the method's metadata. *)
Definition parameter_fragment (name paramIn : string)
           (paramObject : list (string * JsVal)) : JsVal :=
  JObj [("operationFragment",
         JObj [("parameters", JArr [JObj (parameter_object name paramIn paramObject)])])].

(** [mergeSOCControllerMethodMetadata] called with a metadata fragment
    instead of an updater. *)
Class FragmentMerge (metadata : MetadataModule) : Type := {
  mergeSOCControllerMethodMetadata_fragment :
    Store -> nat -> JsVal -> PropertyKey -> Result Store
}.

Section ParameterDecorator.
Context `{metadata : !MetadataModule} `{fragments : !FragmentMerge metadata}.

(** The decorator returned for [name], [paramIn] and [paramObject], applied
    to [target], [propertyKey] and [parameterIndex]. *)
Definition createParameterDecorator (name paramIn : string)
           (paramObject : list (string * JsVal)) (s : Store) (target : nat)
           (propertyKey : option PropertyKey) (parameterIndex : nat) : Result Store :=
  match propertyKey with
  | None => Throw (Error "@QueryParam() must be applied to a method.")
  | Some propertyKey =>
      match mergeSOCControllerMethodMetadata_fragment s target
              (parameter_fragment name paramIn paramObject) propertyKey with
      | Throw e => Throw e
      | Return s1 =>
          setMethodParameterType s1 target propertyKey parameterIndex
            (mkArg "openapi-parameter" (Some name))
      end
  end.

End ParameterDecorator.

(** A table that files each merged fragment with the method's other
    metadata. *)
Module TableFragments.

Definition merge_fragment (s : @Store TableStore.module) (target : nat)
           (fragment : JsVal) (k : PropertyKey) : Result (@Store TableStore.module) :=
  Return (fun target' k' =>
            if bool_decide ((target', k') = (target, k))
            then mkMetadata (args (s target k)) (("fragment", fragment) :: others (s target k))
            else s target' k').

Definition fragments : FragmentMerge TableStore.module :=
  {| mergeSOCControllerMethodMetadata_fragment := merge_fragment |}.

End TableFragments.

(** ** More worked inputs *)
Module Sample2.

(** A schema that is a string, or one of two alternatives. *)
Definition mixed_schema : JsVal :=
  JObj [("type", JStr "string");
        ("oneOf", JArr [JObj [("type", JArr [JStr "number"; JStr "null"])];
                        JObj [("anyOf", JArr [JObj [("type", JStr "boolean")]])]])].

(** A factory that fails. *)
Definition failing_options : CreateMethodHandlerOpts (package := Sample.package) :=
  mkOpts (package := Sample.package) None None
    (Some [fun _ => ret None;
           fun _ => throw (Error "no processor");
           fun fc => let! p := fc_createValueProcessor fc Sample.number_schema in
                     ret (Some p)])
    None None None.

(** A resolver that knows the controller key [pets]. *)
Definition resolving_options : CreateMethodHandlerOpts (package := Sample.package) :=
  mkOpts (package := Sample.package)
    (Some (fun ref _ =>
             match ref with
             | ControllerKey "pets" => Return Sample.pets
             | ControllerObject c => Return c
             | _ => Throw (Error "unknown controller")
             end))
    None None None None None.

(** An operation that names its controller by key, in a document of its
    own. *)
Definition keyedPets : OperationObject :=
  mkOperation (Some "listPets")
    (Some (mkExtension (ControllerKey "pets") (HandlerKey "list") None None None)).

Definition keyed_store : OpenAPIObject :=
  mkSpec (Some {[ "/pets" := {[ "get" := keyedPets ]} ]}).

(** An operation bound to an object without members and to a function. *)
Definition concretePets : OperationObject :=
  mkOperation (Some "listPets")
    (Some (mkExtension (ControllerObject (mkController []))
             (HandlerFunction (Fn "listPets")) None None None)).

Definition concrete_store : OpenAPIObject :=
  mkSpec (Some {[ "/pets" := {[ "get" := concretePets ]} ]}).

Definition plain_options : CreateMethodHandlerOpts (package := Sample.package) :=
  mkOpts (package := Sample.package) None None None None None None.

(** An engine that accepts no schema. *)
Definition strict_ajv : AJV :=
  mkAJV (fun _ => Throw (Error "schema is invalid")) SmallEngine.text.

End Sample2.

(** * Properties *)

(** ** Strings *)

Lemma append_String (a : ascii) (x y : string) :
  String a x +:+ y = String a (x +:+ y).
Proof. reflexivity. Qed.

Lemma append_empty (y : string) : "" +:+ y = y.
Proof. reflexivity. Qed.

Lemma indexOf_prefix (c : ascii) (s : string) (i : nat) :
  indexOf c s = Some i ->
  indexOf c (String.substring 0 i s) = None
  /\ exists rest, s = String.substring 0 i s +:+ String c rest.
Proof.
  revert i. induction s as [|a s IH]; intros i H; simpl in H; [discriminate|].
  destruct (Ascii.eqb a c) eqn:Hac.
  - injection H as <-. apply Ascii.eqb_eq in Hac. subst a. simpl.
    split; [reflexivity|]. exists s. reflexivity.
  - destruct (indexOf c s) as [j|] eqn:Hj; [|discriminate].
    injection H as <-. destruct (IH j eq_refl) as [Hnone [rest Hrest]].
    simpl. rewrite Hac, Hnone. split; [reflexivity|].
    exists rest. rewrite append_String. f_equal. exact Hrest.
Qed.

Lemma split_nonempty (c : ascii) (s : string) : split c s <> [].
Proof.
  destruct s as [|a s]; simpl; [discriminate|].
  destruct (Ascii.eqb a c); [discriminate|].
  destruct (split c s); discriminate.
Qed.

Lemma join_split (c : ascii) (s : string) : join c (split c s) = s.
Proof.
  induction s as [|a s IH]; [reflexivity|]. simpl.
  destruct (Ascii.eqb a c) eqn:Hac.
  - apply Ascii.eqb_eq in Hac. subst a.
    pose proof (split_nonempty c s) as Hne.
    destruct (split c s) as [|h t] eqn:Hs; [contradiction|].
    simpl in *. rewrite IH. destruct t; rewrite ?append_empty; reflexivity.
  - pose proof (split_nonempty c s) as Hne.
    destruct (split c s) as [|h t] eqn:Hs; [contradiction|].
    destruct t as [|h' t]; simpl in *; rewrite <- IH, ?append_String; reflexivity.
Qed.

Lemma split_parts_clean (c : ascii) (s : string) :
  Forall (fun part => indexOf c part = None) (split c s).
Proof.
  induction s as [|a s IH]; simpl.
  - constructor; [reflexivity | constructor].
  - destruct (Ascii.eqb a c) eqn:Hac.
    + constructor; [reflexivity | exact IH].
    + destruct (split c s) as [|h t].
      * constructor; [simpl; rewrite Hac; reflexivity | constructor].
      * inversion IH as [|? ? Hh Ht]; subst.
        constructor; [simpl; rewrite Hac, Hh; reflexivity | exact Ht].
Qed.

(** ** Content-type matching *)

Section ContentTypeFacts.
Import ContentType.

Variable parts : list string.

Lemma matches_halves (type : string) :
  matches parts type = true <->
  (split "/" type !! 0 = Some "*" \/ split "/" type !! 0 = parts !! 0)
  /\ (split "/" type !! 1 = Some "*" \/ split "/" type !! 1 = parts !! 1).
Proof.
  assert (Heq : forall a b, slot_eqb a b = true <-> a = b).
  { intros [x|] [y|]; simpl; try (split; congruence).
    rewrite String.eqb_eq. split; congruence. }
  unfold matches, is_star. rewrite andb_true_iff, !orb_true_iff, !Heq. reflexivity.
Qed.

Lemma scan_cons (type : string) (value : JsVal) (rest : list (string * JsVal))
      (chosen : JsVal) (used : nat) :
  scan parts ((type, value) :: rest) chosen used =
  if matches parts type then
    if negb (truthy chosen) || Nat.ltb (wildcards type) used
    then if Nat.eqb (wildcards type) 0 then value
         else scan parts rest value (wildcards type)
    else scan parts rest chosen used
  else scan parts rest chosen used.
Proof.
  unfold matches, wildcards. simpl.
  destruct (is_star (split "/" type !! 0)), (is_star (split "/" type !! 1)),
    (slot_eqb (split "/" type !! 0) (parts !! 0)),
    (slot_eqb (split "/" type !! 1) (parts !! 1)); reflexivity.
Qed.

Lemma select_app (l1 l2 : list (string * JsVal)) (current : option (nat * JsVal)) :
  select parts (l1 ++ l2) current = select parts l2 (select parts l1 current).
Proof.
  revert current. induction l1 as [|[k v] l1 IH]; intros current; [reflexivity|].
  simpl. destruct (matches parts k); [|apply IH].
  destruct current as [[u w]|]; [destruct (Nat.ltb (wildcards k) u)|]; apply IH.
Qed.

Lemma select_settled (l : list (string * JsVal)) (u : nat) (v : JsVal) :
  (forall e, e ∈ l -> matches parts e.1 = true -> u <= wildcards e.1) ->
  select parts l (Some (u, v)) = Some (u, v).
Proof.
  induction l as [|[k x] l IH]; intros H; [reflexivity|]. simpl.
  assert (Hl : select parts l (Some (u, v)) = Some (u, v)).
  { apply IH. intros e He. apply H. by right. }
  destruct (matches parts k) eqn:Hm; [|exact Hl].
  specialize (H (k, x) ltac:(by left) Hm). simpl in H.
  destruct (Nat.ltb_spec (wildcards k) u); [lia | exact Hl].
Qed.

Lemma select_prefix (l : list (string * JsVal)) (u : nat)
      (current : option (nat * JsVal)) :
  (forall e, e ∈ l -> matches parts e.1 = true -> u < wildcards e.1) ->
  (forall u' v', current = Some (u', v') -> u < u') ->
  forall u' v', select parts l current = Some (u', v') -> u < u'.
Proof.
  revert current. induction l as [|[k x] l IH]; intros current Hl Hc u' v'; simpl.
  - apply Hc.
  - assert (Hl' : forall e, e ∈ l -> matches parts e.1 = true -> u < wildcards e.1).
    { intros e He. apply Hl. by right. }
    destruct (matches parts k) eqn:Hm; [|by apply IH].
    pose proof (Hl (k, x) ltac:(by left) Hm) as Hk. simpl in Hk.
    assert (Hnew : forall u0 v0, Some (wildcards k, x) = Some (u0, v0) -> u < u0).
    { intros u0 v0 [= <- <-]. exact Hk. }
    destruct current as [[u0 v0]|]; [destruct (Nat.ltb (wildcards k) u0)|];
      by apply IH.
Qed.

(** The fold picks the first entry among the matching ones with the fewest
    wildcards. *)
Lemma select_first_best (pre post : list (string * JsVal)) (k : string) (v : JsVal) :
  matches parts k = true ->
  (forall e, e ∈ pre -> matches parts e.1 = true -> wildcards k < wildcards e.1) ->
  (forall e, e ∈ post -> matches parts e.1 = true -> wildcards k <= wildcards e.1) ->
  select parts (pre ++ (k, v) :: post) None = Some (wildcards k, v).
Proof.
  intros Hm Hpre Hpost. rewrite select_app. simpl. rewrite Hm.
  pose proof (select_prefix pre (wildcards k) None Hpre ltac:(discriminate)) as Hp.
  destruct (select parts pre None) as [[u0 v0]|].
  - specialize (Hp u0 v0 eq_refl).
    destruct (Nat.ltb_spec (wildcards k) u0); [|lia].
    by apply select_settled.
  - by apply select_settled.
Qed.

Lemma select_sound (l : list (string * JsVal)) (current : option (nat * JsVal)) :
  match select parts l current with
  | None => current = None /\ forall e, e ∈ l -> matches parts e.1 = false
  | Some (u, v) =>
      (current = Some (u, v)
       \/ exists k, (k, v) ∈ l /\ matches parts k = true /\ wildcards k = u)
      /\ (forall e, e ∈ l -> matches parts e.1 = true -> u <= wildcards e.1)
      /\ (forall u0 v0, current = Some (u0, v0) -> u <= u0)
  end.
Proof.
  revert current. induction l as [|[k x] l IH]; intros current.
  - simpl. destruct current as [[u v]|].
    + split; [by left|]. split; [intros e He; inversion He|].
      intros u0 v0 [= <- <-]. lia.
    + split; [done|]. intros e He. inversion He.
  - simpl. destruct (matches parts k) eqn:Hm.
    + set (next := match current with
                   | Some (used, _) =>
                       if Nat.ltb (wildcards k) used then Some (wildcards k, x)
                       else current
                   | None => Some (wildcards k, x)
                   end).
      assert (Hsel : match current with
                     | Some (used, _) =>
                         if Nat.ltb (wildcards k) used
                         then select parts l (Some (wildcards k, x))
                         else select parts l current
                     | None => select parts l (Some (wildcards k, x))
                     end = select parts l next).
      { subst next. destruct current as [[u0 v0]|]; [|done].
        by destruct (Nat.ltb (wildcards k) u0). }
      rewrite Hsel. specialize (IH next).
      assert (Hnext : exists un vn, next = Some (un, vn) /\ un <= wildcards k
                /\ (next = current \/ (un = wildcards k /\ vn = x))
                /\ (forall u0 v0, current = Some (u0, v0) -> un <= u0)).
      { subst next. destruct current as [[u0 v0]|].
        - destruct (Nat.ltb_spec (wildcards k) u0).
          + exists (wildcards k), x. repeat split; [lia | by right |].
            intros ? ? [= <- <-]. lia.
          + exists u0, v0. repeat split; [lia | by left |].
            intros ? ? [= <- <-]. lia.
        - exists (wildcards k), x. repeat split; [lia | by right | discriminate]. }
      destruct Hnext as (un & vn & Hn & Hle & Horigin & Hcur).
      destruct (select parts l next) as [[u v]|].
      * destruct IH as (Hfrom & Hmin & Hbound).
        specialize (Hbound un vn Hn).
        split; [|split].
        -- destruct Hfrom as [Hfrom | (k' & Hin & Hmk & Hwk)].
           ++ rewrite Hn in Hfrom. injection Hfrom as <- <-.
              destruct Horigin as [Hsame | [-> ->]].
              ** left. by rewrite <- Hsame, Hn.
              ** right. exists k. split; [by left | done].
           ++ right. exists k'. split; [by right | done].
        -- intros e He Hme. apply elem_of_cons in He as [-> | He].
           ++ simpl. lia.
           ++ by apply Hmin.
        -- intros u0 v0 Hc. specialize (Hcur u0 v0 Hc). lia.
      * destruct IH as [Hnone _]. rewrite Hn in Hnone. discriminate.
    + specialize (IH current). destruct (select parts l current) as [[u v]|].
      * destruct IH as (Hfrom & Hmin & Hbound). split; [|split]; [| |done].
        -- destruct Hfrom as [Hfrom | (k' & Hin & Hmk & Hwk)]; [by left|].
           right. exists k'. split; [by right | done].
        -- intros e He Hme. apply elem_of_cons in He as [-> | He].
           ++ simpl in Hme. congruence.
           ++ by apply Hmin.
      * destruct IH as [Hc Hno]. split; [done|].
        intros e He. apply elem_of_cons in He as [-> | He]; [done | by apply Hno].
Qed.

Lemma select_exact (l : list (string * JsVal)) (v : JsVal) :
  select parts l (Some (0, v)) = Some (0, v).
Proof. apply select_settled. intros. lia. Qed.

(** The loop computes the fold whenever every matching pattern that has a
    star carries a truthy value: the [break] only skips entries that could
    not win, and a value taken at an exact match is returned at once. *)
Lemma scan_select (l : list (string * JsVal)) :
  (forall e, e ∈ l -> matches parts e.1 = true -> wildcards e.1 <> 0 ->
             truthy e.2 = true) ->
  forall current chosen used,
    tracks current chosen used ->
    scan parts l chosen used =
    match select parts l current with Some (_, v) => v | None => JNull end.
Proof.
  induction l as [|[k x] l IH]; intros Hall current chosen used Ht.
  - simpl. destruct current as [[u v]|]; [by destruct Ht | done].
  - assert (Hl : forall e, e ∈ l -> matches parts e.1 = true -> wildcards e.1 <> 0 ->
                           truthy e.2 = true).
    { intros e He. apply Hall. by right. }
    pose proof (Hall (k, x) ltac:(by left)) as Hx. simpl in Hx.
    rewrite scan_cons. simpl select.
    destruct (matches parts k); [|by apply IH].
    destruct current as [[u v]|]; simpl in Ht.
    + destruct Ht as (-> & -> & Hv). rewrite Hv. simpl.
      destruct (Nat.ltb (wildcards k) u).
      * destruct (Nat.eqb_spec (wildcards k) 0) as [Hz|Hz].
        -- rewrite Hz. by rewrite select_exact.
        -- apply IH; [done|]. simpl. auto.
      * by apply IH.
    + subst chosen. simpl.
      destruct (Nat.eqb_spec (wildcards k) 0) as [Hz|Hz].
      * rewrite Hz. by rewrite select_exact.
      * apply IH; [done|]. simpl. auto.
Qed.

End ContentTypeFacts.

Lemma strip_parameters_spec (observed : string) :
  indexOf ";" (ContentType.strip_parameters observed) = None
  /\ (observed = ContentType.strip_parameters observed
      \/ exists params,
           observed = ContentType.strip_parameters observed +:+ String ";" params).
Proof.
  unfold ContentType.strip_parameters.
  destruct (indexOf ";" observed) as [i|] eqn:Hi.
  - destruct (indexOf_prefix _ _ _ Hi) as [Hnone [rest Hrest]].
    split; [exact Hnone | right; by exists rest].
  - split; [exact Hi | by left].
Qed.

Lemma pickContentType_empty (contentType : option string) (values : list (string * JsVal)) :
  ContentType.strip_parameters (default "" contentType) = "" ->
  ContentType.pickContentType contentType values
  = match assoc "*/*" values with
    | Some v => if nullish v then JNull else v
    | None => JNull
    end.
Proof.
  intros Hempty. unfold ContentType.pickContentType, coalesce, record_get.
  destruct contentType as [ct|]; simpl in *.
  - destruct ct as [|a ct]; [|rewrite Hempty]; by destruct (assoc "*/*" values).
  - by destruct (assoc "*/*" values).
Qed.

Lemma pickContentType_scan (observed : string) (values : list (string * JsVal)) :
  ContentType.strip_parameters observed <> "" ->
  ContentType.pickContentType (Some observed) values
  = ContentType.scan (split "/" (ContentType.strip_parameters observed)) values JNull 0.
Proof.
  intros Hne. unfold ContentType.pickContentType.
  destruct observed as [|a s]; [done|].
  destruct (ContentType.strip_parameters (String a s)); [done | reflexivity].
Qed.

Example pick_text_wildcard :
  ContentType.pickContentType (Some "text/plain; charset=utf-8") Sample.media
  = JStr "text body".
Proof. reflexivity. Qed.

Example pick_exact_over_wildcard :
  ContentType.pickContentType (Some "application/json")
    [("*/*", JStr "any"); ("application/*", JStr "app"); ("application/json", JStr "json")]
  = JStr "json".
Proof. reflexivity. Qed.

Example pick_absent_takes_all_star :
  ContentType.pickContentType None [("text/*", JStr "text"); ("*/*", JStr "any")] = JStr "any"
  /\ ContentType.pickContentType (Some "") Sample.media = JNull.
Proof. split; reflexivity. Qed.

(** C4.  The code departs from the claim on a mapping with a falsy value.
    Observing [text/plain] with [text/*] bound to [0] and the all-star
    pattern bound to [7], the claim (and the loop's own comment, which looks
    for the most accurate entry) call for [0], the value of the matching
    pattern with the fewest stars; the test [!chosen] takes the chosen [0]
    for "nothing chosen yet", and the call returns [7], so the matcher's
    contract fails at this input. *)
Lemma pickContentType_falsy_value_not_best :
  ContentType.pickContentType (Some "text/plain") Sample.falsy_media = JNum 7
  /\ ~ ContentType.best_match_contract (Some "text/plain") Sample.falsy_media.
Proof.
  split; [reflexivity|].
  intros (_ & _ & _ & H). destruct (H ltac:(discriminate)) as (_ & Hbest & _).
  destruct (Hbest ("text/*", JNum 0) ltac:(by left) eq_refl)
    as (k & v & Hin & _ & Hv & Hmin).
  change (JNum 7 = v) in Hv. subst v.
  specialize (Hmin ("text/*", JNum 0) ltac:(by left) eq_refl). simpl in Hmin.
  apply elem_of_cons in Hin as [Hin | Hin]; [discriminate|].
  apply elem_of_cons in Hin as [Hin | Hin]; [|inversion Hin].
  injection Hin as ->. vm_compute in Hmin. lia.
Qed.

(** C10.  The code departs from the claim when the first of two equally
    specific matches has a falsy value: [text/*] bound to [0] comes first,
    [*/plain] comes second with as many stars and no match is more
    specific, so the claim calls for [0]; the test [!chosen] lets the later
    entry replace the earlier one although it has no fewer stars, and the
    call returns the second value. *)
Lemma pickContentType_later_equal_replaces_falsy :
  ContentType.matches (split "/" "text/plain") "text/*" = true
  /\ ContentType.matches (split "/" "text/plain") "*/plain" = true
  /\ ContentType.wildcards "text/*" = ContentType.wildcards "*/plain"
  /\ Sample.tied_falsy_media = [] ++ ("text/*", JNum 0) :: [("*/plain", JStr "later")]
  /\ ContentType.pickContentType (Some "text/plain") Sample.tied_falsy_media = JStr "later"
  /\ ContentType.pickContentType (Some "text/plain") Sample.tied_falsy_media <> JNum 0.
Proof. repeat split; discriminate. Qed.

(** ** Reference resolution *)

Example resolve_missing_is_null :
  resolveReference (pointers := Rfc6901.package) Sample.document
    (Sample.reference "#/components/schemas/Missing") = Return JNull.
Proof. reflexivity. Qed.

Example resolve_one_level_only :
  resolveReference (pointers := Rfc6901.package) Sample.document
    (Sample.reference "#/components/schemas/Alias")
  = Return (Sample.reference "#/components/schemas/Pet").
Proof. reflexivity. Qed.

Example resolve_external_throws :
  is_throw (resolveReference (pointers := Rfc6901.package) Sample.document
              (Sample.reference "http://other/doc#/X")).
Proof. exact I. Qed.

(** C3, amended.  For every pointer package, document and object [value]:
    without a [$ref] key the value comes back unchanged; a [$ref] string that
    does not start with [#] throws the unsupported-reference error, which
    names the reference; a [$ref] that starts with [#] and whose remainder
    parses as a pointer yields [null] when evaluating the pointer in the
    document throws, and otherwise the target the pointer evaluates to, not
    resolved any further; a remainder the parser rejects lets the parser's
    error escape. *)
Theorem resolveReference_cases `{pointers : !JsonPointer} (spec : JsVal)
        (fields : list (string * JsVal)) :
  (assoc "$ref" fields = None ->
   resolveReference spec (JObj fields) = Return (JObj fields))
  /\ (forall ref, assoc "$ref" fields = Some (JStr ref) -> startsWith "#" ref = false ->
        exists msg, resolveReference spec (JObj fields) = Throw (Error msg)
                    /\ mentions msg "external reference" /\ mentions msg ref)
  /\ (forall ref ptr, assoc "$ref" fields = Some (JStr ref) -> startsWith "#" ref = true ->
        Ptr_parse (substring_from_1 ref) = Return ptr ->
        (forall e, Ptr_eval ptr spec = Throw e ->
                   resolveReference spec (JObj fields) = Return JNull)
        /\ (forall target, Ptr_eval ptr spec = Return target ->
                   resolveReference spec (JObj fields) = Return target))
  /\ (forall ref e, assoc "$ref" fields = Some (JStr ref) -> startsWith "#" ref = true ->
        Ptr_parse (substring_from_1 ref) = Throw e ->
        resolveReference spec (JObj fields) = Throw e).
Proof.
  split; [|split; [|split]].
  - intros Hnone. simpl. by rewrite Hnone.
  - intros ref Href Hext. simpl. rewrite Href, Hext. simpl.
    eexists. split; [reflexivity|]. split.
    + exists "Cannot resolve ", (" " +:+ dquote +:+ ref +:+ dquote +:+ " in the OpenAPI schema.").
      reflexivity.
    + exists ("Cannot resolve external reference " +:+ dquote),
             (dquote +:+ " in the OpenAPI schema.").
      reflexivity.
  - intros ref ptr Href Hint Hparse. simpl. rewrite Href, Hint. simpl. rewrite Hparse.
    split; [intros e Heval | intros target Heval]; by rewrite Heval.
  - intros ref e Href Hint Hparse. simpl. rewrite Href, Hint. simpl. by rewrite Hparse.
Qed.

Lemma resolveReference_cases_witness :
  resolveReference (pointers := Rfc6901.package) Sample.document
    (JObj [("type", JStr "string")]) = Return (JObj [("type", JStr "string")])
  /\ is_throw (resolveReference (pointers := Rfc6901.package) Sample.document
                 (Sample.reference "http://other/doc#/X"))
  /\ resolveReference (pointers := Rfc6901.package) Sample.document
       (Sample.reference "#/components/schemas/Missing") = Return JNull
  /\ resolveReference (pointers := Rfc6901.package) Sample.document
       (Sample.reference "#/components/schemas/Pet")
     = Return (JObj [("type", JStr "object")]).
Proof.
  pose proof (resolveReference_cases (pointers := Rfc6901.package) Sample.document
                [("type", JStr "string")]) as (Hplain & _).
  pose proof (resolveReference_cases (pointers := Rfc6901.package) Sample.document
                [("$ref", JStr "http://other/doc#/X")]) as (_ & Hext & _).
  pose proof (resolveReference_cases (pointers := Rfc6901.package) Sample.document
                [("$ref", JStr "#/components/schemas/Missing")]) as (_ & _ & Hmiss & _).
  pose proof (resolveReference_cases (pointers := Rfc6901.package) Sample.document
                [("$ref", JStr "#/components/schemas/Pet")]) as (_ & _ & Hpet & _).
  split; [exact (Hplain eq_refl)|].
  split.
  { destruct (Hext _ eq_refl eq_refl) as (msg & Hthrow & _).
    unfold Sample.reference. rewrite Hthrow. exact I. }
  split.
  { destruct (Hmiss _ ["components"; "schemas"; "Missing"] eq_refl eq_refl eq_refl)
      as [Hnull _].
    exact (Hnull (EvalError "Missing") eq_refl). }
  destruct (Hpet _ ["components"; "schemas"; "Pet"] eq_refl eq_refl eq_refl)
    as [_ Htarget].
  exact (Htarget _ eq_refl).
Defined.

(** C3 as stated fails on a reference whose text after [#] is not a pointer:
    [#abc] starts with [#], yet the call neither returns [null] nor a target;
    the parser's error escapes, since parsing happens outside the [try]. *)
Lemma resolveReference_malformed_pointer_throws :
  startsWith "#" "#abc" = true
  /\ resolveReference (pointers := Rfc6901.package) Sample.document
       (Sample.reference "#abc") = Throw (InvalidPtrError "abc")
  /\ (forall r, resolveReference (pointers := Rfc6901.package) Sample.document
                  (Sample.reference "#abc") <> Return r).
Proof. repeat split. intros r. discriminate. Qed.

(** ** The value processor *)

Lemma world0_ok : world_ok Sample.world0.
Proof. intros ref [v Hv]. simpl in Hv. by rewrite lookup_empty in Hv. Qed.

(** Building a processor allocates the wrapper schema, compiles it (the
    engine cannot have seen the new object before) and closes over the
    validator. *)
Lemma createValueProcessor_run (ajv : AJV) (schema : JsVal) (w : World)
      (validate : ValidateFunction) :
  world_ok w ->
  codegen ajv (wrapSchema schema) = Return validate ->
  createValueProcessor ajv schema w
  = (Return (fun value =>
               if negb (valid (validate (wrapValue value)))
               then Throw (ValidationError (errors (validate (wrapValue value))))
               else Return (prop_get (data (validate (wrapValue value))) "value")),
     mkWorld (S (next_object w)) (<[next_object w := validate]> (ajv_cache w))
             (S (compilations w))).
Proof.
  intros Hok Hgen. unfold createValueProcessor, bind, new_object, ajv_compile, ret.
  simpl. destruct (ajv_cache w !! next_object w) as [v|] eqn:Hc.
  - specialize (Hok (next_object w) ltac:(by eexists)). lia.
  - by rewrite Hgen.
Qed.

Lemma createValueProcessor_world_ok (ajv : AJV) (schema : JsVal) (w w' : World)
      (r : Result ValueProcessor) :
  world_ok w -> createValueProcessor ajv schema w = (r, w') -> world_ok w'.
Proof.
  intros Hok. unfold createValueProcessor, bind, new_object, ajv_compile, ret. simpl.
  destruct (ajv_cache w !! next_object w) as [v|] eqn:Hc.
  - specialize (Hok (next_object w) ltac:(by eexists)). lia.
  - destruct (codegen ajv (wrapSchema schema)); intros [= <- <-]; intros ref; simpl.
    + rewrite lookup_insert. case_decide; [lia|]. intros Hs. specialize (Hok ref Hs). lia.
    + intros Hs. specialize (Hok ref Hs). lia.
Qed.

(** C1.  For every engine and every schema fragment, [createValueProcessor]
    hands the engine the wrapper schema
    [{ type: "object", properties: { value: schema } }].  When the engine
    rejects it, the call throws the engine's exception and no processor
    exists.  When the engine compiles it, the call returns a processor, and
    for every candidate the processor runs the compiled validator on
    [{ value: candidate }]: when the validator accepts, the result is the
    [value] property of the wrapper as the validator left it; when it
    rejects, the processor throws a validation error carrying the
    validator's errors and returns nothing.  So a processor that has been
    returned always validates. *)
Theorem createValueProcessor_wraps (ajv : AJV) (schema : JsVal) (w : World) :
  world_ok w ->
  match codegen ajv
          (JObj [("type", JStr "object"); ("properties", JObj [("value", schema)])]) with
  | Throw e => exists w', createValueProcessor ajv schema w = (Throw e, w')
  | Return validate =>
      exists process w',
        createValueProcessor ajv schema w = (Return process, w')
        /\ forall value,
             let outcome := validate (JObj [("value", value)]) in
             (valid outcome = true ->
              process value = Return (prop_get (data outcome) "value"))
             /\ (valid outcome = false ->
                 process value = Throw (ValidationError (errors outcome)))
  end
  /\ forall process w',
       createValueProcessor ajv schema w = (Return process, w') ->
       exists validate,
         codegen ajv
           (JObj [("type", JStr "object"); ("properties", JObj [("value", schema)])])
         = Return validate
         /\ forall value,
              let outcome := validate (JObj [("value", value)]) in
              (valid outcome = true ->
               process value = Return (prop_get (data outcome) "value"))
              /\ (valid outcome = false ->
                  process value = Throw (ValidationError (errors outcome))).
Proof.
  intros Hok. fold (wrapSchema schema).
  assert (Hmiss : ajv_cache w !! next_object w = None).
  { destruct (ajv_cache w !! next_object w) as [v|] eqn:Hc; [|done].
    specialize (Hok (next_object w) ltac:(by eexists)). lia. }
  assert (Hbehaves : forall validate value,
            let process : ValueProcessor := fun value =>
              if negb (valid (validate (wrapValue value)))
              then Throw (ValidationError (errors (validate (wrapValue value))))
              else Return (prop_get (data (validate (wrapValue value))) "value") in
            let outcome := validate (JObj [("value", value)]) in
            (valid outcome = true ->
             process value = Return (prop_get (data outcome) "value"))
            /\ (valid outcome = false ->
                process value = Throw (ValidationError (errors outcome)))).
  { intros validate value process outcome. subst process outcome.
    fold (wrapValue value). split; intros Hv; by rewrite Hv. }
  destruct (codegen ajv (wrapSchema schema)) as [validate|e] eqn:Hgen.
  - rewrite (createValueProcessor_run ajv schema w validate Hok Hgen). split.
    + do 2 eexists. split; [reflexivity|]. intros value. apply Hbehaves.
    + intros process w' [= <- _]. exists validate. split; [done|].
      intros value. apply Hbehaves.
  - assert (Hrun : createValueProcessor ajv schema w
                   = (Throw e, mkWorld (S (next_object w)) (ajv_cache w) (compilations w))).
    { unfold createValueProcessor, bind, new_object, ajv_compile. simpl.
      by rewrite Hmiss, Hgen. }
    rewrite Hrun. split; [by eexists | discriminate].
Qed.

Lemma createValueProcessor_wraps_witness :
  world_ok Sample.world0
  /\ (exists process w',
        createValueProcessor SmallEngine.ajv Sample.number_schema Sample.world0
        = (Return process, w')
        /\ process (JStr "42") = Return (JNum 42)
        /\ is_throw (process (JStr "abc")))
  /\ exists w',
       createValueProcessor Sample2.strict_ajv Sample.number_schema Sample.world0
       = (Throw (Error "schema is invalid"), w').
Proof.
  split; [exact world0_ok|]. split.
  - destruct (createValueProcessor_wraps SmallEngine.ajv Sample.number_schema Sample.world0
                world0_ok) as [(process & w' & Hrun & Hprocess) _].
    exists process, w'. split; [exact Hrun|]. split.
    + destruct (Hprocess (JStr "42")) as [Hok _]. exact (Hok eq_refl).
    + destruct (Hprocess (JStr "abc")) as [_ Hbad].
      exact (eq_ind_r (x := Throw (ValidationError _)) is_throw I (Hbad eq_refl)).
  - exact (proj1 (createValueProcessor_wraps Sample2.strict_ajv Sample.number_schema
                    Sample.world0 world0_ok)).
Defined.

(** C2, amended.  For every engine, schema fragment and candidate the
    compiled validator rejects, the validation error the processor throws
    carries the validator's error list as it is: every reported path is the
    one the validator gave for the wrapper object, [/value] segment
    included. *)
Theorem createValueProcessor_errors_verbatim (ajv : AJV) (schema : JsVal) (w : World)
        (validate : ValidateFunction) (value : JsVal) :
  world_ok w ->
  codegen ajv (wrapSchema schema) = Return validate ->
  valid (validate (wrapValue value)) = false ->
  exists process w',
    createValueProcessor ajv schema w = (Return process, w')
    /\ process value = Throw (ValidationError (errors (validate (wrapValue value)))).
Proof.
  intros Hok Hgen Hbad. do 2 eexists. split.
  - by apply createValueProcessor_run.
  - simpl. by rewrite Hbad.
Qed.

Lemma createValueProcessor_errors_verbatim_witness :
  world_ok Sample.world0
  /\ exists process w',
       createValueProcessor SmallEngine.ajv Sample.number_schema Sample.world0
       = (Return process, w')
       /\ process (JStr "abc")
          = Throw (ValidationError [mkErrorObject "/value" "type" "must be number"]).
Proof.
  split; [exact world0_ok|].
  exact (createValueProcessor_errors_verbatim SmallEngine.ajv Sample.number_schema
           Sample.world0
           (fun v => SmallEngine.validate (wrapSchema Sample.number_schema) "" v)
           (JStr "abc") world0_ok eq_refl eq_refl).
Defined.

(** C2 as stated fails: coercing ["abc"] against [{ type: "number" }], the
    error thrown still points at [/value]; with the wrapper segment taken
    off it would point at the root. *)
Lemma createValueProcessor_keeps_value_segment :
  strip_value_segment "/value" = ""
  /\ match createValueProcessor SmallEngine.ajv Sample.number_schema Sample.world0 with
     | (Return process, _) =>
         exists e, process (JStr "abc") = Throw (ValidationError [e])
                   /\ instancePath e = "/value"
                   /\ instancePath e <> strip_value_segment "/value"
     | (Throw _, _) => False
     end.
Proof.
  split; [reflexivity|]. simpl.
  exists (mkErrorObject "/value" "type" "must be number").
  repeat split. discriminate.
Qed.

(** C8, amended.  For every engine and schema fragment the engine accepts,
    building a value processor twice for the same fragment yields two
    processors that agree on every input; each build compiles the wrapped
    schema once, so two builds compile it twice, and a built processor keeps
    using the validator it was built with. *)
Theorem createValueProcessor_twice (ajv : AJV) (schema : JsVal) (w : World)
        (validate : ValidateFunction) :
  world_ok w ->
  codegen ajv (wrapSchema schema) = Return validate ->
  exists first w1 second w2,
    createValueProcessor ajv schema w = (Return first, w1)
    /\ createValueProcessor ajv schema w1 = (Return second, w2)
    /\ (forall value, first value = second value)
    /\ compilations w1 = S (compilations w)
    /\ compilations w2 = S (S (compilations w)).
Proof.
  intros Hok Hgen.
  pose proof (createValueProcessor_run ajv schema w validate Hok Hgen) as Hfirst.
  pose proof (createValueProcessor_world_ok _ _ _ _ _ Hok Hfirst) as Hok1.
  pose proof (createValueProcessor_run ajv schema _ validate Hok1 Hgen) as Hsecond.
  do 4 eexists. split; [exact Hfirst|]. split; [exact Hsecond|].
  repeat split.
Qed.

Lemma createValueProcessor_twice_witness :
  world_ok Sample.world0
  /\ exists first w1 second w2,
       createValueProcessor SmallEngine.ajv Sample.number_schema Sample.world0
       = (Return first, w1)
       /\ createValueProcessor SmallEngine.ajv Sample.number_schema w1 = (Return second, w2)
       /\ (forall value, first value = second value)
       /\ compilations w1 = 1
       /\ compilations w2 = 2.
Proof.
  split; [exact world0_ok|].
  exact (createValueProcessor_twice SmallEngine.ajv Sample.number_schema Sample.world0
           (fun v => SmallEngine.validate (wrapSchema Sample.number_schema) "" v)
           world0_ok eq_refl).
Defined.

(** C8 as stated fails: nothing remembers the processor built for a
    fragment, and the wrapper schema is a new object on every call, so the
    engine's own cache never answers; after two builds for one fragment the
    engine has compiled twice, not once. *)
Lemma createValueProcessor_compiles_again :
  match createValueProcessor SmallEngine.ajv Sample.number_schema Sample.world0 with
  | (Return _, w1) =>
      match createValueProcessor SmallEngine.ajv Sample.number_schema w1 with
      | (Return _, w2) => compilations w2 = 2 /\ compilations w2 <> 1
      | (Throw _, _) => False
      end
  | (Throw _, _) => False
  end.
Proof. simpl. split; [reflexivity | discriminate]. Qed.

(** ** Messages *)

Lemma append_assoc (a b c : string) : (a +:+ b) +:+ c = a +:+ b +:+ c.
Proof. induction a as [|x a IH]; [reflexivity|]. by rewrite !append_String, IH. Qed.

Lemma mentions_here (x post : string) : mentions (x +:+ post) x.
Proof. by exists "", post. Qed.

Lemma mentions_later (p s x : string) : mentions s x -> mentions (p +:+ s) x.
Proof.
  intros (pre & post & ->). exists (p +:+ pre), post. by rewrite append_assoc.
Qed.

Ltac find_mention :=
  repeat first [apply mentions_here | apply mentions_later].

(** ** The default resolvers *)



(** ** The factory *)

Section FactoryFacts.
Context `{package : !Package}.
Variables (spec : OpenAPIObject) (path method : string) (ajv : AJV)
          (opts : CreateMethodHandlerOpts).

(** What [createMethodHandlerFromSpec] does once the four checks on the
    document have passed. *)
Lemma createMethodHandlerFromSpec_bound (pathItem : gmap string OperationObject)
      (operation : OperationObject) (extensionData : SOCControllerMethodExtensionData) :
  default ∅ (paths spec) !! path = Some pathItem ->
  pathItem !! method = Some operation ->
  extension operation = Some extensionData ->
  validateSOCControllerMethodExtensionData extensionData = true ->
  createMethodHandlerFromSpec spec path method ajv opts
  = let ctx := mkContext spec path method pathItem operation in
    let! controller :=
      lift (default defaultResolveController (resolveController opts)
              (ext_controller extensionData) ctx) in
    let! handler :=
      lift (default defaultResolveHandler (resolveHandler opts)
              controller (ext_handler extensionData) ctx) in
    let! produced :=
      mapM (fun factory : RequestDataProcessorFactory =>
              factory (mkFactoryContext spec path method pathItem operation
                         controller handler (createValueProcessor ajv)))
           (default [] (requestDataProcessorFactories opts)) in
    ret (mkMethodHandler controller handler
           (default [] (ext_handlerArgs extensionData))
           (omap id produced)
           (default [] (handlerMiddleware opts)
            ++ default [] (ext_handlerMiddleware extensionData))
           (default [] (preExpressMiddleware opts)
            ++ default [] (ext_preExpressMiddleware extensionData))
           (default [] (postExpressMiddleware opts))
           (mkHandlerContext spec path method pathItem operation controller handler)).
Proof.
  intros Hpath Hop Hext Hvalid. unfold createMethodHandlerFromSpec.
  by rewrite Hpath, Hop, Hext, Hvalid.
Qed.

(** A handler comes back only for a bound, valid operation. *)
Lemma createMethodHandlerFromSpec_returns_inv (w w' : World) (mh : MethodHandler) :
  createMethodHandlerFromSpec spec path method ajv opts w = (Return mh, w') ->
  exists pathItem operation extensionData,
    default ∅ (paths spec) !! path = Some pathItem
    /\ pathItem !! method = Some operation
    /\ extension operation = Some extensionData
    /\ validateSOCControllerMethodExtensionData extensionData = true.
Proof.
  unfold createMethodHandlerFromSpec.
  destruct (default ∅ (paths spec) !! path) as [pathItem|] eqn:Hpath; [|discriminate].
  destruct (pathItem !! method) as [operation|] eqn:Hop; [|discriminate].
  destruct (extension operation) as [extensionData|] eqn:Hext; [|discriminate].
  destruct (validateSOCControllerMethodExtensionData extensionData) eqn:Hv;
    [|discriminate].
  intros _. by exists pathItem, operation, extensionData.
Qed.

End FactoryFacts.

(** C6.  For every document, path, method, engine and set of build options,
    [createMethodHandlerFromSpec] throws, instead of returning a handler and
    without compiling anything, when the document has no item for the path,
    when the path item has no operation for the method, when the operation
    carries no binding extension, and when the extension fails its own
    schema; each message names what is missing. *)
Theorem createMethodHandlerFromSpec_configuration_errors `{package : !Package}
        (spec : OpenAPIObject) (path method : string) (ajv : AJV)
        (opts : CreateMethodHandlerOpts) (w : World) :
  (default ∅ (paths spec) !! path = None ->
   exists msg, createMethodHandlerFromSpec spec path method ajv opts w
               = (Throw (Error msg), w) /\ mentions msg path)
  /\ (forall pathItem,
        default ∅ (paths spec) !! path = Some pathItem -> pathItem !! method = None ->
        exists msg, createMethodHandlerFromSpec spec path method ajv opts w
                    = (Throw (Error msg), w)
                    /\ mentions msg method /\ mentions msg path)
  /\ (forall pathItem operation,
        default ∅ (paths spec) !! path = Some pathItem ->
        pathItem !! method = Some operation ->
        (extension operation = None ->
         exists msg, createMethodHandlerFromSpec spec path method ajv opts w
                     = (Throw (Error msg), w)
                     /\ mentions msg (interpolate (operationId operation))
                     /\ mentions msg SOCControllerMethodExtensionName)
        /\ (forall extensionData,
              extension operation = Some extensionData ->
              validateSOCControllerMethodExtensionData extensionData = false ->
              exists msg, createMethodHandlerFromSpec spec path method ajv opts w
                          = (Throw (Error msg), w)
                          /\ mentions msg (interpolate (operationId operation))
                          /\ mentions msg
                               (errorsText ajv
                                  (validateSOCControllerMethodExtensionData_errors
                                     extensionData)))).
Proof.
  split; [|split].
  - intros Hpath. unfold createMethodHandlerFromSpec. rewrite Hpath.
    eexists. split; [reflexivity | find_mention].
  - intros pathItem Hpath Hop. unfold createMethodHandlerFromSpec. rewrite Hpath, Hop.
    eexists. split; [reflexivity|]. split; find_mention.
  - intros pathItem operation Hpath Hop. split.
    + intros Hext. unfold createMethodHandlerFromSpec. rewrite Hpath, Hop, Hext.
      eexists. split; [reflexivity|]. split; find_mention.
    + intros extensionData Hext Hbad. unfold createMethodHandlerFromSpec.
      rewrite Hpath, Hop, Hext, Hbad.
      eexists. split; [reflexivity|]. split; find_mention.
Qed.

Lemma createMethodHandlerFromSpec_configuration_errors_witness :
  is_throw (createMethodHandlerFromSpec (package := Sample.package) Sample.petstore
              "/cats" "get" SmallEngine.ajv Sample.options Sample.world0).1
  /\ is_throw (createMethodHandlerFromSpec (package := Sample.package) Sample.petstore
                 "/pets" "head" SmallEngine.ajv Sample.options Sample.world0).1
  /\ is_throw (createMethodHandlerFromSpec (package := Sample.package) Sample.petstore
                 "/pets" "patch" SmallEngine.ajv Sample.options Sample.world0).1
  /\ is_throw (createMethodHandlerFromSpec (package := Sample.package) Sample.petstore
                 "/pets" "put" SmallEngine.ajv Sample.options Sample.world0).1.
Proof.
  split; [|split; [|split]].
  - destruct (createMethodHandlerFromSpec_configuration_errors (package := Sample.package)
                Sample.petstore "/cats" "get" SmallEngine.ajv Sample.options Sample.world0)
      as (Hpath & _).
    destruct (Hpath eq_refl) as (msg & -> & _). exact I.
  - destruct (createMethodHandlerFromSpec_configuration_errors (package := Sample.package)
                Sample.petstore "/pets" "head" SmallEngine.ajv Sample.options Sample.world0)
      as (_ & Hop & _).
    destruct (Hop _ eq_refl eq_refl) as (msg & -> & _). exact I.
  - destruct (createMethodHandlerFromSpec_configuration_errors (package := Sample.package)
                Sample.petstore "/pets" "patch" SmallEngine.ajv Sample.options Sample.world0)
      as (_ & _ & Hext).
    destruct (Hext _ Sample.unboundPet eq_refl eq_refl) as [Hmissing _].
    destruct (Hmissing eq_refl) as (msg & -> & _). exact I.
  - destruct (createMethodHandlerFromSpec_configuration_errors (package := Sample.package)
                Sample.petstore "/pets" "put" SmallEngine.ajv Sample.options Sample.world0)
      as (_ & _ & Hext).
    destruct (Hext _ Sample.brokenPet eq_refl eq_refl) as [_ Hinvalid].
    destruct (Hinvalid _ eq_refl eq_refl) as (msg & -> & _). exact I.
Defined.

(** C5.  For every set of build options and every operation,
    whenever [createMethodHandlerFromSpec] returns a handler, the operation
    has extension data, and the handler's handler-wrapping and pre-dispatch
    lists are the option defaults followed by the extension's entries, while
    its post-dispatch list is the option default alone. *)
Theorem createMethodHandlerFromSpec_middleware `{package : !Package}
        (spec : OpenAPIObject) (path method : string) (ajv : AJV)
        (opts : CreateMethodHandlerOpts) (w w' : World) (mh : MethodHandler) :
  createMethodHandlerFromSpec spec path method ajv opts w = (Return mh, w') ->
  exists pathItem operation extensionData,
    default ∅ (paths spec) !! path = Some pathItem
    /\ pathItem !! method = Some operation
    /\ extension operation = Some extensionData
    /\ mh_handlerMiddleware mh
       = default [] (handlerMiddleware opts)
         ++ default [] (ext_handlerMiddleware extensionData)
    /\ mh_preExpressMiddleware mh
       = default [] (preExpressMiddleware opts)
         ++ default [] (ext_preExpressMiddleware extensionData)
    /\ mh_postExpressMiddleware mh = default [] (postExpressMiddleware opts).
Proof.
  intros Hrun.
  destruct (createMethodHandlerFromSpec_returns_inv _ _ _ _ _ _ _ _ Hrun)
    as (pathItem & operation & extensionData & Hpath & Hop & Hext & Hvalid).
  exists pathItem, operation, extensionData. repeat (split; [done|]).
  rewrite (createMethodHandlerFromSpec_bound _ _ _ _ _ _ _ _ Hpath Hop Hext Hvalid) in Hrun.
  cbv zeta in Hrun. unfold bind, lift, ret in Hrun.
  destruct (default defaultResolveController (resolveController opts) _ _)
    as [controller|]; [|discriminate].
  destruct (default defaultResolveHandler (resolveHandler opts) _ _ _)
    as [handler|]; [|discriminate].
  destruct (mapM _ _ w) as [[produced|] w1]; [|discriminate].
  injection Hrun as <- _. by repeat split.
Qed.

Lemma createMethodHandlerFromSpec_middleware_witness :
  exists mh w',
    createMethodHandlerFromSpec (package := Sample.package) Sample.petstore "/pets" "get"
      SmallEngine.ajv Sample.options Sample.world0 = (Return mh, w')
    /\ mh_handlerMiddleware mh = [Fn "A"; Fn "B"]
    /\ mh_preExpressMiddleware mh = [Fn "auth"]
    /\ mh_postExpressMiddleware mh = [Fn "log"].
Proof.
  destruct (createMethodHandlerFromSpec (package := Sample.package) Sample.petstore "/pets"
              "get" SmallEngine.ajv Sample.options Sample.world0) as [[mh|e] w'] eqn:Hrun;
    [|vm_compute in Hrun; discriminate].
  exists mh, w'. split; [reflexivity|].
  destruct (createMethodHandlerFromSpec_middleware (package := Sample.package)
              Sample.petstore "/pets" "get" SmallEngine.ajv Sample.options
              Sample.world0 w' mh Hrun)
    as (pathItem & operation & ext & Hpath & Hop & Hext & Hh & Hp & Hq).
  vm_compute in Hpath. injection Hpath as <-.
  vm_compute in Hop. injection Hop as <-.
  vm_compute in Hext. injection Hext as <-.
  split; [exact Hh|]. split; [exact Hp | exact Hq].
Defined.

(** ** Argument descriptors *)

Lemma js_array_get_set_eq {A : Type} (a : list (Slot A)) (i : nat) (x : A) :
  js_array_get (js_array_set a i x) i = Some x.
Proof.
  unfold js_array_get, js_array_set. case_decide as Hi.
  - by rewrite list_lookup_insert_eq.
  - rewrite lookup_app_r by lia. rewrite lookup_app_r; rewrite length_replicate; [|lia].
    by replace (i - length a - (i - length a)) with 0 by lia.
Qed.

Lemma js_array_get_set_ne {A : Type} (a : list (Slot A)) (i j : nat) (x : A) :
  j <> i -> js_array_get (js_array_set a i x) j = js_array_get a j.
Proof.
  intros Hne. unfold js_array_get, js_array_set. case_decide as Hi.
  - by rewrite list_lookup_insert_ne.
  - destruct (decide (j < length a)) as [Hj|Hj].
    + by rewrite lookup_app_l.
    + rewrite (lookup_ge_None_2 a j) by lia.
      rewrite lookup_app_r by lia.
      destruct (decide (j - length a < i - length a)) as [Hin|Hout].
      * rewrite lookup_app_l by (rewrite length_replicate; lia).
        by rewrite lookup_replicate_2.
      * rewrite lookup_app_r by (rewrite length_replicate; lia).
        rewrite length_replicate.
        destruct (j - length a - (i - length a)) as [|n] eqn:Hn; [lia | done].
Qed.

Lemma js_array_get_copy {A : Type} (a : list (Slot A)) (i : nat) :
  js_array_get (js_array_copy a) i = js_array_get a i.
Proof.
  unfold js_array_get, js_array_copy. revert i.
  induction a as [|slot a IH]; intros i; [done|].
  destruct i as [|i]; [by destruct slot | apply IH].
Qed.

Lemma typed_at_copy (a : list (Slot SOCControllerMethodHandlerArg)) (i : nat) :
  typed_at (js_array_copy a) i = typed_at a i.
Proof. unfold typed_at. by rewrite js_array_get_copy. Qed.

Lemma table_merge_applies_updater : merge_applies_updater TableStore.module.
Proof.
  intros s target f k. simpl. unfold TableStore.merge.
  destruct (f (s target k)) as [md|e]; [|reflexivity].
  eexists. split; [reflexivity|]. split.
  - by rewrite bool_decide_eq_true_2.
  - intros target' k' Hne. by rewrite bool_decide_eq_false_2.
Qed.

(** C9.  For every method and parameter index, [setMethodParameterType]
    throws when the method's argument list already holds a typed descriptor
    at the index, and otherwise stores an argument list that reads the new
    descriptor at exactly that index and, at every other index, what it read
    before (an index past the end only grows the list with empty slots);
    other methods' metadata is untouched.  So a position of the list holds
    at most one descriptor, and a descriptor's place in the list is the
    handler parameter it was declared on. *)
Theorem setMethodParameterType_records `{metadata : !MetadataModule} (s : Store)
        (target : nat) (propertyKey : PropertyKey) (parameterIndex : nat)
        (arg : SOCControllerMethodHandlerArg) :
  merge_applies_updater metadata ->
  (typed_at (args_of s target propertyKey) parameterIndex = true ->
   exists msg, setMethodParameterType s target propertyKey parameterIndex arg
               = Throw (Error msg)
               /\ mentions msg (String_of_key propertyKey)
               /\ mentions msg (decimal parameterIndex))
  /\ (typed_at (args_of s target propertyKey) parameterIndex = false ->
      exists s', setMethodParameterType s target propertyKey parameterIndex arg = Return s'
        /\ js_array_get (args_of s' target propertyKey) parameterIndex = Some arg
        /\ (forall j, j <> parameterIndex ->
              js_array_get (args_of s' target propertyKey) j
              = js_array_get (args_of s target propertyKey) j)
        /\ (forall target' k', (target', k') <> (target, propertyKey) ->
              getMetadata s' target' k' = getMetadata s target' k')).
Proof.
  intros Hmerge. unfold setMethodParameterType, args_of.
  specialize (Hmerge s target
                (setMethodParameterType_updater propertyKey parameterIndex arg)
                propertyKey).
  unfold setMethodParameterType_updater in Hmerge at 1.
  rewrite typed_at_copy in Hmerge.
  split.
  - intros Htyped. rewrite Htyped in Hmerge.
    eexists. split; [exact Hmerge|]. split; find_mention.
  - intros Hfree. rewrite Hfree in Hmerge.
    destruct Hmerge as (s' & Hrun & Hget & Hrest).
    exists s'. split; [exact Hrun|]. rewrite Hget. simpl.
    split; [apply js_array_get_set_eq|].
    split; [|exact Hrest].
    intros j Hj. by rewrite js_array_get_set_ne, js_array_get_copy.
Qed.

Lemma setMethodParameterType_records_witness :
  merge_applies_updater TableStore.module
  /\ exists s1 s2,
       setMethodParameterType (metadata := TableStore.module) TableStore.empty 7
         (KString "addNumbers") 1 (Sample.queryArg "b") = Return s1
       /\ setMethodParameterType (metadata := TableStore.module) s1 7
            (KString "addNumbers") 0 (Sample.queryArg "a") = Return s2
       /\ args_of (metadata := TableStore.module) s2 7 (KString "addNumbers")
          = [Item (Sample.queryArg "a"); Item (Sample.queryArg "b")]
       /\ is_throw (setMethodParameterType (metadata := TableStore.module) s2 7
                      (KString "addNumbers") 1 (Sample.queryArg "c")).
Proof.
  split; [exact table_merge_applies_updater|].
  destruct (setMethodParameterType_records (metadata := TableStore.module) TableStore.empty
              7 (KString "addNumbers") 1 (Sample.queryArg "b")
              table_merge_applies_updater) as [_ Hfirst].
  destruct (Hfirst eq_refl) as (s1 & Hs1 & _).
  exists s1. injection Hs1 as <-.
  eexists. split; [reflexivity|]. split; [reflexivity|]. split; [reflexivity|].
  match goal with
  | |- is_throw (setMethodParameterType ?s _ _ _ _) =>
      destruct (setMethodParameterType_records (metadata := TableStore.module) s 7
                  (KString "addNumbers") 1 (Sample.queryArg "c")
                  table_merge_applies_updater) as [Hthrow _]
  end.
  destruct (Hthrow eq_refl) as (msg & -> & _). exact I.
Defined.

(** ** Schema type queries *)

Section SchemaTypesFacts.
Import SchemaTypes.

Lemma includes_elem (types : list JsVal) (t : string) :
  includes types t = true <-> JStr t ∈ types.
Proof.
  unfold includes. rewrite existsb_exists. split.
  - intros (x & Hin & Hx). destruct x; try discriminate.
    apply String.eqb_eq in Hx. subst. by apply list_elem_of_In.
  - intros Hin. exists (JStr t). split; [by apply list_elem_of_In|].
    apply String.eqb_refl.
Qed.

Lemma collect_objects (items : list JsVal) :
  Forall (fun item => exists fs, item = JObj fs) items ->
  collect items = Return (flat_map declared items).
Proof.
  induction 1 as [|item items [fs ->] _ IH]; [reflexivity|].
  simpl. by rewrite IH.
Qed.

Lemma alternatives_schema_array (fields : list (string * JsVal)) (k : string) :
  schema_array (record_get fields k) ->
  alternatives (JObj fields) k = Return (flat_map declared (members_of (JObj fields) k)).
Proof.
  unfold alternatives, members_of. simpl.
  intros [-> | (items & -> & Hitems)]; [reflexivity|].
  simpl. by apply collect_objects.
Qed.

(** What [getTypes] returns on a schema object: its own types, then those
    its [oneOf] members name themselves, then those of its [anyOf] members. *)
Lemma getTypes_schema (fields : list (string * JsVal)) :
  schema_array (record_get fields "oneOf") ->
  schema_array (record_get fields "anyOf") ->
  getTypes (JObj fields)
  = Return (declared (JObj fields)
            ++ flat_map declared (members_of (JObj fields) "oneOf")
            ++ flat_map declared (members_of (JObj fields) "anyOf")).
Proof.
  intros Hone Hany. unfold getTypes.
  rewrite (alternatives_schema_array _ _ Hone), (alternatives_schema_array _ _ Hany).
  reflexivity.
Qed.

Lemma elem_of_flat_map_declared (x : JsVal) (items : list JsVal) :
  x ∈ flat_map declared items <-> exists item, item ∈ items /\ x ∈ declared item.
Proof.
  rewrite list_elem_of_In, in_flat_map. split; intros (item & Hin & Hx); exists item.
  - by rewrite !list_elem_of_In.
  - by rewrite <- !list_elem_of_In.
Qed.

End SchemaTypesFacts.

(** X1.  On a schema object whose [oneOf] and [anyOf] are absent or arrays of
    schema objects, [schemaIncludesType] returns, and it answers [true]
    exactly when the type is named by the schema's own [type] keyword or by
    the [type] keyword of one of its [oneOf] or [anyOf] members; nothing
    deeper is looked at. *)
Theorem schemaIncludesType_one_level (fields : list (string * JsVal)) (t : string) :
  SchemaTypes.schema_array (record_get fields "oneOf") ->
  SchemaTypes.schema_array (record_get fields "anyOf") ->
  exists b, SchemaTypes.schemaIncludesType (JObj fields) t = Return b
    /\ (b = true <->
        JStr t ∈ SchemaTypes.declared (JObj fields)
        \/ exists item,
             (item ∈ SchemaTypes.members_of (JObj fields) "oneOf"
              \/ item ∈ SchemaTypes.members_of (JObj fields) "anyOf")
             /\ JStr t ∈ SchemaTypes.declared item).
Proof.
  intros Hone Hany. unfold SchemaTypes.schemaIncludesType.
  rewrite (getTypes_schema _ Hone Hany). eexists. split; [reflexivity|].
  rewrite includes_elem, !elem_of_app, !elem_of_flat_map_declared. split.
  - intros [Hown | [(item & Hi & Ht) | (item & Hi & Ht)]];
      [by left | right; exists item; auto | right; exists item; auto].
  - intros [Hown | (item & [Hi | Hi] & Ht)];
      [by left | right; left; by exists item | right; right; by exists item].
Qed.

Lemma schemaIncludesType_one_level_witness :
  SchemaTypes.schemaIncludesType Sample2.mixed_schema "null" = Return true
  /\ SchemaTypes.schemaIncludesType Sample2.mixed_schema "boolean" = Return false.
Proof.
  assert (Hone : SchemaTypes.schema_array
                   (record_get [("type", JStr "string");
                                ("oneOf", JArr [JObj [("type", JArr [JStr "number"; JStr "null"])];
                                                JObj [("anyOf", JArr [JObj [("type", JStr "boolean")]])]])]
                      "oneOf")).
  { right. eexists. split; [reflexivity|]. repeat constructor; by eexists. }
  split.
  - destruct (schemaIncludesType_one_level _ "null" Hone ltac:(by left)) as (b & Hb & _).
    transitivity (Return (A := bool) b); [exact Hb|].
    vm_compute in Hb. by injection Hb as <-.
  - destruct (schemaIncludesType_one_level _ "boolean" Hone ltac:(by left)) as (b & Hb & _).
    transitivity (Return (A := bool) b); [exact Hb|].
    vm_compute in Hb. by injection Hb as <-.
Defined.

(** X2.  Whenever [getTypes] returns, [schemaIncludesAnyTypeExcept] answers
    [false] exactly when the collected list is the one entry [type]: a schema
    that names no type at all, one that names another type, and one that
    names [type] twice (say, itself and in a [oneOf] member) all answer
    [true]. *)
Theorem schemaIncludesAnyTypeExcept_false_iff (schema : JsVal) (types : list JsVal)
        (t : string) :
  SchemaTypes.getTypes schema = Return types ->
  exists b, SchemaTypes.schemaIncludesAnyTypeExcept schema t = Return b
    /\ (b = false <-> types = [JStr t]).
Proof.
  intros Hget. unfold SchemaTypes.schemaIncludesAnyTypeExcept. rewrite Hget.
  eexists. split; [reflexivity|].
  rewrite orb_false_iff, negb_false_iff, Nat.ltb_ge, includes_elem. split.
  - intros [Hin Hlen]. destruct types as [|x [|y types]]; simpl in Hlen; [|
      apply list_elem_of_singleton in Hin as <-; reflexivity | lia].
    inversion Hin.
  - intros ->. split; [by apply list_elem_of_singleton | simpl; lia].
Qed.

Lemma schemaIncludesAnyTypeExcept_false_iff_witness :
  SchemaTypes.schemaIncludesAnyTypeExcept (JObj [("type", JStr "array")]) "array"
  = Return false
  /\ SchemaTypes.schemaIncludesAnyTypeExcept (JObj []) "array" = Return true
  /\ SchemaTypes.schemaIncludesAnyTypeExcept
       (JObj [("type", JStr "array"); ("oneOf", JArr [JObj [("type", JStr "array")]])])
       "array" = Return true.
Proof.
  split; [|split].
  - destruct (schemaIncludesAnyTypeExcept_false_iff (JObj [("type", JStr "array")])
                [JStr "array"] "array" eq_refl) as (b & -> & Hb).
    f_equal. by apply Hb.
  - destruct (schemaIncludesAnyTypeExcept_false_iff (JObj []) [] "array" eq_refl)
      as (b & -> & Hb).
    f_equal. destruct b; [reflexivity|]. by destruct Hb as [Hb _]; specialize (Hb eq_refl).
  - destruct (schemaIncludesAnyTypeExcept_false_iff
                (JObj [("type", JStr "array"); ("oneOf", JArr [JObj [("type", JStr "array")]])])
                [JStr "array"; JStr "array"] "array" eq_refl) as (b & -> & Hb).
    f_equal. destruct b; [reflexivity|]. by destruct Hb as [Hb _]; specialize (Hb eq_refl).
Defined.

(** X3.  A schema object that names no type itself and whose [oneOf] and
    [anyOf] members carry no [type] keyword of their own (references,
    members that only nest further alternatives) has no types: it includes
    no type, and "any type except" holds of it for every type. *)
Theorem untyped_members_give_no_types (fields : list (string * JsVal)) (t : string) :
  record_get fields "type" = JUndefined ->
  SchemaTypes.schema_array (record_get fields "oneOf") ->
  SchemaTypes.schema_array (record_get fields "anyOf") ->
  (forall item,
     item ∈ SchemaTypes.members_of (JObj fields) "oneOf"
     \/ item ∈ SchemaTypes.members_of (JObj fields) "anyOf" ->
     prop_get item "type" = JUndefined) ->
  SchemaTypes.getTypes (JObj fields) = Return []
  /\ SchemaTypes.schemaIncludesType (JObj fields) t = Return false
  /\ SchemaTypes.schemaIncludesAnyTypeExcept (JObj fields) t = Return true.
Proof.
  intros Hown Hone Hany Hmembers.
  assert (Hnone : forall items,
            (forall item, item ∈ items -> prop_get item "type" = JUndefined) ->
            flat_map SchemaTypes.declared items = []).
  { induction items as [|item items IH]; intros H; [reflexivity|]. simpl.
    rewrite IH by (intros i Hi; apply H; by right).
    unfold SchemaTypes.declared. by rewrite (H item) by by left. }
  assert (Hget : SchemaTypes.getTypes (JObj fields) = Return []).
  { rewrite (getTypes_schema _ Hone Hany).
    rewrite !Hnone by (intros item Hitem; apply Hmembers; auto).
    unfold SchemaTypes.declared. simpl. by rewrite Hown. }
  unfold SchemaTypes.schemaIncludesType, SchemaTypes.schemaIncludesAnyTypeExcept.
  by rewrite Hget.
Qed.

Lemma untyped_members_give_no_types_witness :
  SchemaTypes.schemaIncludesType
    (JObj [("oneOf", JArr [Sample.reference "#/components/schemas/Pet";
                           JObj [("anyOf", JArr [JObj [("type", JStr "boolean")]])]])])
    "boolean" = Return false.
Proof.
  apply (untyped_members_give_no_types
           [("oneOf", JArr [Sample.reference "#/components/schemas/Pet";
                            JObj [("anyOf", JArr [JObj [("type", JStr "boolean")]])]])]
           "boolean").
  - reflexivity.
  - right. eexists. split; [reflexivity|]. repeat constructor; by eexists.
  - by left.
  - intros item [Hitem | Hitem]; simpl in Hitem.
    + apply elem_of_cons in Hitem as [-> | Hitem]; [reflexivity|].
      apply list_elem_of_singleton in Hitem as ->. reflexivity.
    + inversion Hitem.
Defined.

(** X4.  The single type and the type list agree: when
    [getSchemaSingleTypeOrNull] returns a non-empty type name for a schema
    on which [getTypes] returns, [schemaIncludesType] holds of that name. *)
Theorem single_type_is_included (schema : JsVal) (types : list JsVal) (t : string) :
  SchemaTypes.getTypes schema = Return types ->
  SchemaTypes.getSchemaSingleTypeOrNull schema = Return (JStr t) ->
  t <> "" ->
  SchemaTypes.schemaIncludesType schema t = Return true.
Proof.
  unfold SchemaTypes.getTypes, SchemaTypes.getSchemaSingleTypeOrNull,
    SchemaTypes.schemaIncludesType.
  intros Hget Hsingle Hne.
  destruct (SchemaTypes.read schema "type") as [t0|e] eqn:Hread; [|discriminate].
  assert (t0 = JStr t) as -> by (destruct t0; congruence).
  unfold SchemaTypes.getTypes. rewrite Hread.
  destruct (SchemaTypes.alternatives schema "oneOf") as [one|]; [|discriminate].
  destruct (SchemaTypes.alternatives schema "anyOf") as [any|]; [|discriminate].
  f_equal. apply includes_elem.
  assert (Htruthy : truthy (JStr t) = true).
  { simpl. destruct (String.eqb_spec t ""); [contradiction | reflexivity]. }
  rewrite Htruthy. simpl. by left.
Qed.

Lemma single_type_is_included_witness :
  SchemaTypes.schemaIncludesType Sample2.mixed_schema "string" = Return true.
Proof.
  apply (single_type_is_included Sample2.mixed_schema
           [JStr "string"; JStr "number"; JStr "null"] "string");
    [reflexivity | reflexivity | discriminate].
Defined.

(** ** More on content-type matching *)

Lemma indexOf_append (c : ascii) (base rest : string) :
  indexOf c base = None ->
  indexOf c (base +:+ String c rest) = Some (String.length base).
Proof.
  induction base as [|a base IH]; intros Hnone.
  - simpl. by rewrite Ascii.eqb_refl.
  - simpl in Hnone. rewrite append_String. simpl.
    destruct (Ascii.eqb a c); [discriminate|].
    destruct (indexOf c base); [discriminate|]. by rewrite IH.
Qed.

Lemma substring_append (base rest : string) :
  String.substring 0 (String.length base) (base +:+ rest) = base.
Proof.
  induction base as [|a base IH].
  - rewrite append_empty. by destruct rest.
  - rewrite append_String. simpl. by rewrite IH.
Qed.

Lemma strip_parameters_append (base params : string) :
  indexOf ";" base = None ->
  ContentType.strip_parameters (base +:+ String ";" params) = base
  /\ ContentType.strip_parameters base = base.
Proof.
  intros Hnone. unfold ContentType.strip_parameters.
  rewrite (indexOf_append _ _ _ Hnone), Hnone. split; [apply substring_append | done].
Qed.

(** The call sees the observed type only through what is left of it once
    the parameters are dropped. *)
Lemma pickContentType_by_base (observed : string) (values : list (string * JsVal)) :
  ContentType.pickContentType (Some observed) values
  = match ContentType.strip_parameters observed with
    | "" => coalesce (record_get values "*/*") JNull
    | base => ContentType.scan (split "/" base) values JNull 0
    end.
Proof.
  unfold ContentType.pickContentType. destruct observed as [|a s]; [reflexivity|].
  by destruct (ContentType.strip_parameters (String a s)).
Qed.

Lemma assoc_elem {A : Type} (k : string) (v : A) (l : list (string * A)) :
  assoc k l = Some v -> (k, v) ∈ l.
Proof.
  induction l as [|[k' x] l IH]; [discriminate|]. simpl.
  destruct (String.eqb_spec k' k) as [-> | Hne].
  - intros [= ->]. by left.
  - intros H. right. by apply IH.
Qed.

Section MoreContentTypeFacts.
Import ContentType.
Variable parts : list string.

Lemma scan_origin (l : list (string * JsVal)) (chosen : JsVal) (used : nat) :
  scan parts l chosen used = chosen
  \/ exists k, (k, scan parts l chosen used) ∈ l /\ matches parts k = true.
Proof.
  revert chosen used. induction l as [|[k v] l IH]; intros chosen used; [by left|].
  rewrite scan_cons.
  assert (Hlater : forall c u,
            scan parts l c u = c
            \/ exists k', (k', scan parts l c u) ∈ (k, v) :: l /\ matches parts k' = true).
  { intros c u. destruct (IH c u) as [Heq | (k' & Hin & Hm)]; [by left|].
    right. exists k'. split; [by right | done]. }
  destruct (matches parts k) eqn:Hm; [|apply Hlater].
  destruct (negb (truthy chosen) || Nat.ltb (wildcards k) used); [|apply Hlater].
  destruct (Nat.eqb (wildcards k) 0).
  - right. exists k. split; [by left | done].
  - destruct (Hlater v (wildcards k)) as [Heq | Hex]; [|by right].
    right. exists k. rewrite Heq. split; [by left | done].
Qed.

Lemma scan_unmatched (l : list (string * JsVal)) (chosen : JsVal) (used : nat) :
  (forall e, e ∈ l -> matches parts e.1 = false) ->
  scan parts l chosen used = chosen.
Proof.
  induction l as [|[k v] l IH]; intros Hno; [reflexivity|].
  pose proof (Hno (k, v) ltac:(by left)) as Hk. simpl in Hk.
  rewrite scan_cons, Hk.
  apply IH. intros e He. apply Hno. by right.
Qed.

(** An exact match ends the loop whatever was chosen before it, as long as
    the count kept for a truthy choice is positive, which the loop ensures. *)
Lemma scan_exact (pre post : list (string * JsVal)) (k : string) (v : JsVal) :
  matches parts k = true -> wildcards k = 0 ->
  (forall e, e ∈ pre -> matches parts e.1 = true -> 0 < wildcards e.1) ->
  forall chosen used, (truthy chosen = true -> 0 < used) ->
  scan parts (pre ++ (k, v) :: post) chosen used = v.
Proof.
  intros Hm Hz. induction pre as [|[k' x] pre IH]; intros Hpre chosen used Hc.
  - simpl app. rewrite scan_cons, Hm, Hz. simpl.
    destruct (truthy chosen); simpl; [|done].
    specialize (Hc eq_refl). by destruct used; [lia|].
  - assert (Hpre' : forall e, e ∈ pre -> matches parts e.1 = true -> 0 < wildcards e.1).
    { intros e He. apply Hpre. by right. }
    simpl app. rewrite scan_cons.
    destruct (matches parts k') eqn:Hm'; [|by apply IH].
    pose proof (Hpre (k', x) ltac:(by left) Hm') as Hpos. simpl in Hpos.
    destruct (negb (truthy chosen) || Nat.ltb (wildcards k') used); [|by apply IH].
    destruct (Nat.eqb_spec (wildcards k') 0); [lia|].
    apply IH; [done | intros _; lia].
Qed.

(** While the value chosen is falsy, the next matching entry takes over and
    the loop goes on as if nothing had been chosen. *)
Lemma scan_falsy_restart (l : list (string * JsVal)) (c c' : JsVal) (u u' : nat) :
  truthy c = false -> truthy c' = false ->
  (exists e, e ∈ l /\ matches parts e.1 = true) ->
  scan parts l c u = scan parts l c' u'.
Proof.
  intros Hc Hc'. induction l as [|[k v] l IH]; intros (e & He & Hm).
  - inversion He.
  - rewrite !scan_cons. destruct (matches parts k) eqn:Hk.
    + rewrite Hc, Hc'. reflexivity.
    + apply IH. apply elem_of_cons in He as [-> | He]; [simpl in Hm; congruence|].
      by exists e.
Qed.

End MoreContentTypeFacts.

Lemma scan_two_halves (parts parts' : list string) (l : list (string * JsVal))
      (chosen : JsVal) (used : nat) :
  parts !! 0 = parts' !! 0 -> parts !! 1 = parts' !! 1 ->
  ContentType.scan parts l chosen used = ContentType.scan parts' l chosen used.
Proof.
  intros H0 H1. revert chosen used.
  induction l as [|[k v] l IH]; intros chosen used; [reflexivity|].
  rewrite !scan_cons. unfold ContentType.matches. rewrite H0, H1.
  by rewrite !IH.
Qed.

(** X5.  Whatever follows the first semicolon of the observed content type
    has no influence: the type with parameters selects what the bare type
    selects, for every mapping. *)
Theorem pickContentType_ignores_parameters (base params : string)
        (values : list (string * JsVal)) :
  indexOf ";" base = None ->
  ContentType.pickContentType (Some (base +:+ String ";" params)) values
  = ContentType.pickContentType (Some base) values.
Proof.
  intros Hnone. destruct (strip_parameters_append base params Hnone) as [Hp Hb].
  by rewrite !pickContentType_by_base, Hp, Hb.
Qed.

Lemma pickContentType_ignores_parameters_witness :
  ContentType.pickContentType (Some "text/plain; charset=utf-8") Sample.media
  = ContentType.pickContentType (Some "text/plain") Sample.media.
Proof.
  exact (pickContentType_ignores_parameters "text/plain" " charset=utf-8" Sample.media
           eq_refl).
Defined.

(** X6.  For every mapping, truthy values or not, an exact pattern wins: the
    first matching pattern without a star decides the result, whatever
    matched before it and whatever comes after it. *)
Theorem pickContentType_exact_always_wins (observed : string)
        (pre post : list (string * JsVal)) (k : string) (v : JsVal) :
  ContentType.strip_parameters observed <> "" ->
  ContentType.matches (split "/" (ContentType.strip_parameters observed)) k = true ->
  ContentType.wildcards k = 0 ->
  (forall e, e ∈ pre ->
     ContentType.matches (split "/" (ContentType.strip_parameters observed)) e.1 = true ->
     0 < ContentType.wildcards e.1) ->
  ContentType.pickContentType (Some observed) (pre ++ (k, v) :: post) = v.
Proof.
  intros Hne Hm Hz Hpre. rewrite pickContentType_scan by done.
  apply scan_exact; [done | done | done | discriminate].
Qed.

Lemma pickContentType_exact_always_wins_witness :
  ContentType.pickContentType (Some "text/plain")
    ([("text/*", JNum 0); ("*/*", JNull)] ++ ("text/plain", JBool false) :: [("*/plain", JNum 1)])
  = JBool false.
Proof.
  apply (pickContentType_exact_always_wins "text/plain"
           [("text/*", JNum 0); ("*/*", JNull)] [("*/plain", JNum 1)] "text/plain"
           (JBool false)); [discriminate | reflexivity | reflexivity |].
  intros e He _. apply elem_of_cons in He as [-> | He]; [vm_compute; lia|].
  apply list_elem_of_singleton in He as ->. vm_compute. lia.
Defined.

(** X7.  The result is never made up: for every observed type and mapping it
    is [null] or the value of an entry of the mapping; with a non-empty
    observed type that entry's pattern matches, and [null] is the result when
    no pattern matches; with an empty or absent one the entry is the all-star
    pattern's. *)
Theorem pickContentType_result_origin (contentType : option string)
        (values : list (string * JsVal)) :
  let base := ContentType.strip_parameters (default "" contentType) in
  let result := ContentType.pickContentType contentType values in
  (base = "" -> result = JNull \/ ("*/*", result) ∈ values)
  /\ (base <> "" ->
      (result = JNull
       \/ exists k, (k, result) ∈ values /\ ContentType.matches (split "/" base) k = true)
      /\ ((forall e, e ∈ values -> ContentType.matches (split "/" base) e.1 = false) ->
          result = JNull)).
Proof.
  cbv zeta. split.
  - intros Hempty. rewrite (pickContentType_empty _ _ Hempty).
    destruct (assoc "*/*" values) as [v|] eqn:Hv; [|by left].
    destruct (nullish v); [by left|]. right. by apply assoc_elem.
  - intros Hne. destruct contentType as [observed|]; [simpl in *|by contradiction Hne].
    rewrite pickContentType_scan by done. split.
    + apply scan_origin.
    + apply scan_unmatched.
Qed.

Lemma pickContentType_result_origin_witness :
  ContentType.pickContentType (Some "image/png") Sample.media = JNull.
Proof.
  destruct (pickContentType_result_origin (Some "image/png") Sample.media) as [_ H].
  destruct (H ltac:(discriminate)) as [_ Hnone]. apply Hnone.
  intros e He. apply elem_of_cons in He as [-> | He]; [reflexivity|].
  apply list_elem_of_singleton in He as ->. reflexivity.
Defined.

(** X8.  A falsy value does not hold its place: when the first entry matches
    with at least one star and its value is falsy, the result is what the
    rest of the mapping alone would give as soon as any later entry matches,
    and that falsy value only when none does. *)
Theorem pickContentType_falsy_first_entry (observed : string) (k : string) (v : JsVal)
        (rest : list (string * JsVal)) :
  let parts := split "/" (ContentType.strip_parameters observed) in
  ContentType.strip_parameters observed <> "" ->
  ContentType.matches parts k = true ->
  ContentType.wildcards k <> 0 ->
  truthy v = false ->
  ((exists e, e ∈ rest /\ ContentType.matches parts e.1 = true) ->
   ContentType.pickContentType (Some observed) ((k, v) :: rest)
   = ContentType.pickContentType (Some observed) rest)
  /\ ((forall e, e ∈ rest -> ContentType.matches parts e.1 = false) ->
      ContentType.pickContentType (Some observed) ((k, v) :: rest) = v).
Proof.
  intros parts Hne Hm Hw Hv. rewrite !pickContentType_scan by done. fold parts.
  rewrite scan_cons, Hm. simpl.
  destruct (Nat.eqb_spec (ContentType.wildcards k) 0); [contradiction|].
  split.
  - intros Hex. by apply scan_falsy_restart.
  - intros Hno. by apply scan_unmatched.
Qed.

Lemma pickContentType_falsy_first_entry_witness :
  ContentType.pickContentType (Some "text/plain") Sample.falsy_media
  = ContentType.pickContentType (Some "text/plain") [("*/*", JNum 7)]
  /\ ContentType.pickContentType (Some "text/plain") [("text/*", JNum 0)] = JNum 0.
Proof.
  split.
  - destruct (pickContentType_falsy_first_entry "text/plain" "text/*" (JNum 0)
                [("*/*", JNum 7)] ltac:(discriminate) eq_refl ltac:(discriminate) eq_refl)
      as [Hlater _].
    apply Hlater. exists ("*/*", JNum 7). split; [by left | reflexivity].
  - destruct (pickContentType_falsy_first_entry "text/plain" "text/*" (JNum 0)
                [] ltac:(discriminate) eq_refl ltac:(discriminate) eq_refl)
      as [_ Hnone].
    apply Hnone. intros e He. inversion He.
Defined.

(** X9.  Only the first two slash-separated segments of the observed type
    are compared: two observed types that agree on them select the same
    value from every mapping. *)
Theorem pickContentType_two_segments (observed observed' : string)
        (values : list (string * JsVal)) :
  ContentType.strip_parameters observed <> "" ->
  ContentType.strip_parameters observed' <> "" ->
  split "/" (ContentType.strip_parameters observed) !! 0
  = split "/" (ContentType.strip_parameters observed') !! 0 ->
  split "/" (ContentType.strip_parameters observed) !! 1
  = split "/" (ContentType.strip_parameters observed') !! 1 ->
  ContentType.pickContentType (Some observed) values
  = ContentType.pickContentType (Some observed') values.
Proof.
  intros Hne Hne' H0 H1. rewrite !pickContentType_scan by done.
  by apply scan_two_halves.
Qed.

Lemma pickContentType_two_segments_witness :
  ContentType.pickContentType (Some "text/plain/extra") Sample.media
  = ContentType.pickContentType (Some "text/plain") Sample.media.
Proof.
  apply (pickContentType_two_segments "text/plain/extra" "text/plain" Sample.media);
    [discriminate | discriminate | reflexivity | reflexivity].
Defined.

Section WinnerFacts.
Import ContentType.
Variable parts : list string.

Lemma scan_settled (l : list (string * JsVal)) (v : JsVal) (used : nat) :
  truthy v = true ->
  (forall e, e ∈ l -> matches parts e.1 = true -> used <= wildcards e.1) ->
  scan parts l v used = v.
Proof.
  intros Hv. induction l as [|[k x] l IH]; intros Hl; [reflexivity|].
  rewrite scan_cons.
  assert (Hrest : scan parts l v used = v).
  { apply IH. intros e He. apply Hl. by right. }
  destruct (matches parts k) eqn:Hm; [|exact Hrest].
  pose proof (Hl (k, x) ltac:(by left) Hm) as Hk. simpl in Hk.
  rewrite Hv. simpl. destruct (Nat.ltb_spec (wildcards k) used); [lia | exact Hrest].
Qed.

Lemma scan_first_best (pre post : list (string * JsVal)) (k : string) (v : JsVal) :
  matches parts k = true -> truthy v = true ->
  (forall e, e ∈ pre -> matches parts e.1 = true -> wildcards k < wildcards e.1) ->
  (forall e, e ∈ post -> matches parts e.1 = true -> wildcards k <= wildcards e.1) ->
  forall chosen used, (truthy chosen = true -> wildcards k < used) ->
  scan parts (pre ++ (k, v) :: post) chosen used = v.
Proof.
  intros Hm Hv Hpre Hpost. induction pre as [|[k' x] pre IH]; intros chosen used Hc.
  - simpl app. rewrite scan_cons, Hm.
    assert (Htake : negb (truthy chosen) || Nat.ltb (wildcards k) used = true).
    { destruct (truthy chosen); [|done]. simpl. apply Nat.ltb_lt. by apply Hc. }
    rewrite Htake. destruct (Nat.eqb (wildcards k) 0); [done|].
    by apply scan_settled.
  - assert (Hpre' : forall e, e ∈ pre -> matches parts e.1 = true ->
                              wildcards k < wildcards e.1).
    { intros e He. apply Hpre. by right. }
    simpl app. rewrite scan_cons.
    destruct (matches parts k') eqn:Hm'; [|by apply IH].
    pose proof (Hpre (k', x) ltac:(by left) Hm') as Hk'. simpl in Hk'.
    destruct (negb (truthy chosen) || Nat.ltb (wildcards k') used); [|by apply IH].
    destruct (Nat.eqb_spec (wildcards k') 0); [lia|].
    apply IH; [done | intros _; lia].
Qed.

End WinnerFacts.

(** X22.  The matcher's contract holds for every observed content type and
    every mapping in which each pattern that matches with at least one star
    carries a truthy value (values under exact or non-matching patterns may
    be anything): parameters are dropped, a pattern matches when each half is
    the observed half or a star, the result is [null] when nothing matches
    and otherwise the value of a matching pattern with the fewest starred
    halves, the first exact match ends the search, and an empty or absent
    type reads the all-star pattern only. *)
Theorem pickContentType_best_match (contentType : option string)
        (values : list (string * JsVal)) :
  (forall e, e ∈ values ->
     ContentType.matches
       (split "/" (ContentType.strip_parameters (default "" contentType))) e.1 = true ->
     ContentType.wildcards e.1 <> 0 -> truthy e.2 = true) ->
  ContentType.best_match_contract contentType values.
Proof.
  intros Hall. unfold ContentType.best_match_contract. cbv zeta.
  split; [apply strip_parameters_spec|].
  split; [intros type; apply matches_halves|].
  split; [apply pickContentType_empty|].
  intros Hne.
  destruct contentType as [observed|]; [simpl in *|by contradiction Hne].
  set (parts := split "/" (ContentType.strip_parameters observed)) in *.
  assert (Hpick : ContentType.pickContentType (Some observed) values
                  = match ContentType.select parts values None with
                    | Some (_, v) => v
                    | None => JNull
                    end).
  { rewrite pickContentType_scan by done. by apply scan_select. }
  split; [|split].
  - intros Hno. rewrite pickContentType_scan by done. by apply scan_unmatched.
  - intros e He Hm. rewrite Hpick.
    pose proof (select_sound parts values None) as Hs.
    destruct (ContentType.select parts values None) as [[u v]|] eqn:Hsel.
    + destruct Hs as ([Hc | (k & Hin & Hmk & Hwk)] & Hmin & _); [discriminate|].
      exists k, v. repeat split; [done | done |].
      intros e' He' Hm'. rewrite Hwk. by apply Hmin.
    + destruct Hs as [_ Hno]. specialize (Hno e He). congruence.
  - intros pre k v post Hvalues Hm Hz Hpre post'.
    rewrite pickContentType_scan by done.
    apply scan_exact; [done | done | done | discriminate].
Qed.

Lemma pickContentType_best_match_witness :
  ContentType.best_match_contract (Some "text/plain; charset=utf-8")
    [("image/*", JNull); ("text/plain", JNum 0); ("text/*", JStr "text body")]
  /\ ContentType.best_match_contract (Some "text/html") Sample.media.
Proof.
  split.
  - apply (pickContentType_best_match (Some "text/plain; charset=utf-8")
             [("image/*", JNull); ("text/plain", JNum 0); ("text/*", JStr "text body")]).
    intros e He Hm Hw.
    apply elem_of_cons in He as [-> | He]; [discriminate Hm|].
    apply elem_of_cons in He as [-> | He]; [by contradiction Hw|].
    apply list_elem_of_singleton in He as ->. reflexivity.
  - apply (pickContentType_best_match (Some "text/html") Sample.media).
    intros e He Hm Hw.
    apply elem_of_cons in He as [-> | He]; [discriminate Hm|].
    apply list_elem_of_singleton in He as ->. reflexivity.
Defined.

(** X23.  For every non-empty observed content type: a matching pattern
    with a truthy value that has strictly fewer starred halves than every
    matching pattern before it, and no more than any matching pattern after
    it, is the one whose value is returned, whatever the other values are;
    so among equally specific matches the first wins when its value is
    truthy. *)
Theorem pickContentType_first_among_equals (observed : string)
        (pre post : list (string * JsVal)) (k : string) (v : JsVal) :
  let parts := split "/" (ContentType.strip_parameters observed) in
  ContentType.strip_parameters observed <> "" ->
  truthy v = true ->
  ContentType.matches parts k = true ->
  (forall e, e ∈ pre -> ContentType.matches parts e.1 = true ->
             ContentType.wildcards k < ContentType.wildcards e.1) ->
  (forall e, e ∈ post -> ContentType.matches parts e.1 = true ->
             ContentType.wildcards k <= ContentType.wildcards e.1) ->
  ContentType.pickContentType (Some observed) (pre ++ (k, v) :: post) = v.
Proof.
  intros parts Hne Hv Hm Hpre Hpost.
  rewrite pickContentType_scan by done. fold parts.
  apply scan_first_best; [done | done | done | done | discriminate].
Qed.

Lemma pickContentType_first_among_equals_witness :
  ContentType.wildcards "text/*" = ContentType.wildcards "*/plain"
  /\ ContentType.pickContentType (Some "text/plain") Sample.tied_media = JStr "first"
  /\ ContentType.pickContentType (Some "text/plain")
       ([("*/*", JNum 0)] ++ ("text/*", JStr "first") :: [("*/plain", JNull)])
     = JStr "first".
Proof.
  split; [reflexivity|]. split.
  - apply (pickContentType_first_among_equals "text/plain"
             [("*/*", JStr "any")] [("*/plain", JStr "later")] "text/*" (JStr "first")).
    + discriminate.
    + reflexivity.
    + reflexivity.
    + intros e He _. apply list_elem_of_singleton in He as ->. vm_compute. lia.
    + intros e He _. apply list_elem_of_singleton in He as ->. vm_compute. lia.
  - apply (pickContentType_first_among_equals "text/plain"
             [("*/*", JNum 0)] [("*/plain", JNull)] "text/*" (JStr "first")).
    + discriminate.
    + reflexivity.
    + reflexivity.
    + intros e He _. apply list_elem_of_singleton in He as ->. vm_compute. lia.
    + intros e He _. apply list_elem_of_singleton in He as ->. vm_compute. lia.
Defined.

(** ** More on the factory *)

Lemma mapM_length {A B : Type} (f : A -> M B) (l : list A) (w w' : World) (bs : list B) :
  mapM f l w = (Return bs, w') -> length bs = length l.
Proof.
  revert w bs. induction l as [|a l IH]; intros w bs; simpl.
  - unfold ret. by intros [= <- _].
  - unfold bind, ret. destruct (f a w) as [[b|e] w1]; [|discriminate].
    destruct (mapM f l w1) as [[bs'|e] w2] eqn:Hrest; [|discriminate].
    intros [= <- <-]. simpl. f_equal. by eapply IH.
Qed.

Lemma mapM_stops {A B : Type} (f : A -> M B) (pre post : list A) (a : A)
      (w w1 w2 : World) (bs : list B) (e : Exn) :
  mapM f pre w = (Return bs, w1) ->
  f a w1 = (Throw e, w2) ->
  mapM f (pre ++ a :: post) w = (Throw e, w2).
Proof.
  revert w bs. induction pre as [|x pre IH]; intros w bs; simpl.
  - unfold ret, bind. intros [= _ <-] Hf. by rewrite Hf.
  - unfold bind, ret. destruct (f x w) as [[b|e'] w'] eqn:Hx; [|discriminate].
    destruct (mapM f pre w') as [[bs'|e'] w''] eqn:Hpre; [|discriminate].
    intros [= _ <-] Hf. by rewrite (IH _ _ Hpre Hf).
Qed.

Lemma omap_id_length {A : Type} (l : list (option A)) : length (omap id l) <= length l.
Proof.
  induction l as [|[a|] l IH]; [simpl; lia | |];
    change (omap id (?x :: l)) with (from_option (fun y => y :: omap id l) (omap id l) x);
    simpl; lia.
Qed.

(** X11.  A processor factory that throws fails the build with its own
    exception: the factories before it have run, in order, and the ones
    after it are never called. *)
Theorem createMethodHandlerFromSpec_factory_throws `{package : !Package}
        (spec : OpenAPIObject) (path method : string) (ajv : AJV)
        (opts : CreateMethodHandlerOpts) (w w1 w2 : World)
        (pathItem : gmap string OperationObject) (operation : OperationObject)
        (extensionData : SOCControllerMethodExtensionData)
        (controller : ControllerInstance) (handler : Callable)
        (before after : list RequestDataProcessorFactory)
        (failing : RequestDataProcessorFactory)
        (produced : list (option RequestDataProcessor)) (e : Exn) :
  default ∅ (paths spec) !! path = Some pathItem ->
  pathItem !! method = Some operation ->
  extension operation = Some extensionData ->
  validateSOCControllerMethodExtensionData extensionData = true ->
  default defaultResolveController (resolveController opts)
    (ext_controller extensionData) (mkContext spec path method pathItem operation)
  = Return controller ->
  default defaultResolveHandler (resolveHandler opts) controller
    (ext_handler extensionData) (mkContext spec path method pathItem operation)
  = Return handler ->
  requestDataProcessorFactories opts = Some (before ++ failing :: after) ->
  mapM (fun factory : RequestDataProcessorFactory =>
          factory (mkFactoryContext spec path method pathItem operation controller handler
                     (createValueProcessor ajv))) before w
  = (Return produced, w1) ->
  failing (mkFactoryContext spec path method pathItem operation controller handler
             (createValueProcessor ajv)) w1 = (Throw e, w2) ->
  createMethodHandlerFromSpec spec path method ajv opts w = (Throw e, w2).
Proof.
  intros Hpath Hop Hext Hvalid Hc Hh Hfs Hbefore Hfail.
  rewrite (createMethodHandlerFromSpec_bound _ _ _ _ _ _ _ _ Hpath Hop Hext Hvalid).
  cbv zeta. unfold bind at 1 2 3, lift. rewrite Hc, Hh, Hfs. simpl.
  by rewrite (mapM_stops _ _ _ _ _ _ _ _ _ Hbefore Hfail).
Qed.

Lemma createMethodHandlerFromSpec_factory_throws_witness :
  createMethodHandlerFromSpec (package := Sample.package) Sample.petstore "/pets" "get"
    SmallEngine.ajv Sample2.failing_options Sample.world0
  = (Throw (Error "no processor"), Sample.world0).
Proof.
  exact (createMethodHandlerFromSpec_factory_throws (package := Sample.package)
           Sample.petstore "/pets" "get" SmallEngine.ajv Sample2.failing_options
           Sample.world0 Sample.world0 Sample.world0 _ Sample.listPets _ Sample.pets
           (Fn "PetsController.list") [fun _ => ret None]
           [fun fc => let! p := fc_createValueProcessor fc Sample.number_schema in
                      ret (Some p)]
           (fun _ => throw (Error "no processor")) [None] (Error "no processor")
           eq_refl eq_refl eq_refl eq_refl eq_refl eq_refl eq_refl eq_refl eq_refl).
Defined.

(** X12.  The factory itself compiles nothing and allocates nothing: with no
    processor factories in the options, whatever the build's outcome, the
    engine is left as it was, and a handler that comes back has no
    processors. *)
Theorem createMethodHandlerFromSpec_without_factories `{package : !Package}
        (spec : OpenAPIObject) (path method : string) (ajv : AJV)
        (opts : CreateMethodHandlerOpts) (w w' : World) (r : Result MethodHandler) :
  default [] (requestDataProcessorFactories opts) = [] ->
  createMethodHandlerFromSpec spec path method ajv opts w = (r, w') ->
  w' = w
  /\ forall mh, r = Return mh -> mh_processors mh = [].
Proof.
  intros Hnone. unfold createMethodHandlerFromSpec.
  destruct (default ∅ (paths spec) !! path) as [pathItem|];
    [|by intros [= <- <-]].
  destruct (pathItem !! method) as [operation|]; [|by intros [= <- <-]].
  destruct (extension operation) as [extensionData|]; [|by intros [= <- <-]].
  destruct (validateSOCControllerMethodExtensionData extensionData);
    [|by intros [= <- <-]].
  simpl. unfold bind, lift, ret. rewrite Hnone.
  destruct (default defaultResolveController (resolveController opts) _ _)
    as [controller|]; [|by intros [= <- <-]].
  destruct (default defaultResolveHandler (resolveHandler opts) _ _ _)
    as [handler|]; [|by intros [= <- <-]].
  simpl. unfold ret. intros [= <- <-]. split; [done|]. by intros mh [= <-].
Qed.

Lemma createMethodHandlerFromSpec_without_factories_witness :
  (createMethodHandlerFromSpec (package := Sample.package) Sample2.keyed_store "/pets"
     "get" SmallEngine.ajv Sample2.resolving_options Sample.world0).2 = Sample.world0.
Proof.
  destruct (createMethodHandlerFromSpec (package := Sample.package) Sample2.keyed_store
              "/pets" "get" SmallEngine.ajv Sample2.resolving_options Sample.world0)
    as [r w'] eqn:Hrun.
  exact (proj1 (createMethodHandlerFromSpec_without_factories (package := Sample.package)
                  Sample2.keyed_store "/pets" "get" SmallEngine.ajv
                  Sample2.resolving_options Sample.world0 w' r eq_refl Hrun)).
Defined.

(** X13.  A handler never holds more processors than the options list
    factories: each factory contributes at most one. *)
Theorem createMethodHandlerFromSpec_processor_count `{package : !Package}
        (spec : OpenAPIObject) (path method : string) (ajv : AJV)
        (opts : CreateMethodHandlerOpts) (w w' : World) (mh : MethodHandler) :
  createMethodHandlerFromSpec spec path method ajv opts w = (Return mh, w') ->
  length (mh_processors mh) <= length (default [] (requestDataProcessorFactories opts)).
Proof.
  intros Hrun.
  destruct (createMethodHandlerFromSpec_returns_inv _ _ _ _ _ _ _ _ Hrun)
    as (pathItem & operation & extensionData & Hpath & Hop & Hext & Hvalid).
  rewrite (createMethodHandlerFromSpec_bound _ _ _ _ _ _ _ _ Hpath Hop Hext Hvalid) in Hrun.
  cbv zeta in Hrun. unfold bind, lift, ret in Hrun.
  destruct (default defaultResolveController (resolveController opts) _ _)
    as [controller|]; [|discriminate].
  destruct (default defaultResolveHandler (resolveHandler opts) _ _ _)
    as [handler|]; [|discriminate].
  destruct (mapM _ _ w) as [[produced|] w1] eqn:Hmap; [|discriminate].
  injection Hrun as <- _. simpl.
  rewrite <- (mapM_length _ _ _ _ _ Hmap). apply omap_id_length.
Qed.

Lemma createMethodHandlerFromSpec_processor_count_witness :
  exists mh w',
    createMethodHandlerFromSpec (package := Sample.package) Sample.petstore "/pets" "get"
      SmallEngine.ajv Sample.options Sample.world0 = (Return mh, w')
    /\ length (mh_processors mh) <= 2.
Proof.
  destruct (createMethodHandlerFromSpec (package := Sample.package) Sample.petstore "/pets"
              "get" SmallEngine.ajv Sample.options Sample.world0) as [[mh|e] w'] eqn:Hrun;
    [|vm_compute in Hrun; discriminate].
  exists mh, w'. split; [reflexivity|].
  exact (createMethodHandlerFromSpec_processor_count (package := Sample.package)
           Sample.petstore "/pets" "get" SmallEngine.ajv Sample.options Sample.world0 w' mh
           Hrun).
Defined.

(** X14.  Whichever resolvers are in force, the ones from the options or the
    defaults, an exception from the controller resolver or from the handler
    resolver is the exception of the build, raised before any processor
    factory is called. *)
Theorem createMethodHandlerFromSpec_resolver_throws `{package : !Package}
        (spec : OpenAPIObject) (path method : string) (ajv : AJV)
        (opts : CreateMethodHandlerOpts) (w : World)
        (pathItem : gmap string OperationObject) (operation : OperationObject)
        (extensionData : SOCControllerMethodExtensionData) (e : Exn) :
  default ∅ (paths spec) !! path = Some pathItem ->
  pathItem !! method = Some operation ->
  extension operation = Some extensionData ->
  validateSOCControllerMethodExtensionData extensionData = true ->
  (default defaultResolveController (resolveController opts)
     (ext_controller extensionData) (mkContext spec path method pathItem operation)
   = Throw e
   \/ exists controller,
        default defaultResolveController (resolveController opts)
          (ext_controller extensionData) (mkContext spec path method pathItem operation)
        = Return controller
        /\ default defaultResolveHandler (resolveHandler opts) controller
             (ext_handler extensionData) (mkContext spec path method pathItem operation)
           = Throw e) ->
  createMethodHandlerFromSpec spec path method ajv opts w = (Throw e, w).
Proof.
  intros Hpath Hop Hext Hvalid Hres.
  rewrite (createMethodHandlerFromSpec_bound _ _ _ _ _ _ _ _ Hpath Hop Hext Hvalid).
  cbv zeta. unfold bind, lift.
  destruct Hres as [Hc | (controller & Hc & Hh)]; rewrite Hc; [done|]. by rewrite Hh.
Qed.

Lemma createMethodHandlerFromSpec_resolver_throws_witness :
  createMethodHandlerFromSpec (package := Sample.package) Sample.petstore "/pets" "post"
    SmallEngine.ajv Sample2.resolving_options Sample.world0
  = (Throw (Error ("Handler for operation " +:+ dquote +:+ "addPet" +:+ dquote
                   +:+ " handling " +:+ dquote +:+ "add /pets" +:+ dquote
                   +:+ " is not a function (got add).")),
     Sample.world0).
Proof.
  apply (createMethodHandlerFromSpec_resolver_throws (package := Sample.package)
           Sample.petstore "/pets" "post" SmallEngine.ajv Sample2.resolving_options
           Sample.world0 (ctx_pathItem (Sample.context Sample.addPet "post"))
           Sample.addPet
           (mkExtension (ControllerKey "pets") (HandlerKey "add") None None None));
    [reflexivity | reflexivity | reflexivity | reflexivity |].
  right. exists Sample.pets. split; reflexivity.
Defined.

(** ** More on argument descriptors *)

Lemma js_array_set_length {A : Type} (a : list (Slot A)) (i : nat) (x : A) :
  length (js_array_set a i x) = Nat.max (length a) (S i).
Proof.
  unfold js_array_set. case_decide.
  - rewrite length_insert. lia.
  - rewrite !length_app, length_replicate. simpl. lia.
Qed.

Lemma js_array_copy_length {A : Type} (a : list (Slot A)) :
  length (js_array_copy a) = length a.
Proof. unfold js_array_copy. apply length_map. Qed.

Lemma typed_at_set_ne (a : list (Slot SOCControllerMethodHandlerArg)) (i j : nat)
      (x : SOCControllerMethodHandlerArg) :
  j <> i -> typed_at (js_array_set a i x) j = typed_at a j.
Proof. intros Hne. unfold typed_at. by rewrite js_array_get_set_ne. Qed.

Lemma typed_at_set_eq (a : list (Slot SOCControllerMethodHandlerArg)) (i : nat)
      (x : SOCControllerMethodHandlerArg) :
  typed_at (js_array_set a i x) i = negb (String.eqb (arg_type x) "").
Proof. unfold typed_at. by rewrite js_array_get_set_eq. Qed.

Section DecoratorFacts.
Context `{metadata : !MetadataModule}.
Hypothesis merge_law : merge_applies_updater metadata.

(** What a call does, in full. *)
Lemma setMethodParameterType_run (s : Store) (target : nat) (propertyKey : PropertyKey)
      (parameterIndex : nat) (arg : SOCControllerMethodHandlerArg) :
  if typed_at (args_of s target propertyKey) parameterIndex
  then exists msg,
         setMethodParameterType s target propertyKey parameterIndex arg = Throw (Error msg)
  else exists s',
         setMethodParameterType s target propertyKey parameterIndex arg = Return s'
         /\ getMetadata s' target propertyKey
            = mkMetadata (Some (js_array_set (js_array_copy (args_of s target propertyKey))
                                  parameterIndex arg))
                         (others (getMetadata s target propertyKey))
         /\ forall target' k', (target', k') <> (target, propertyKey) ->
              getMetadata s' target' k' = getMetadata s target' k'.
Proof.
  pose proof (merge_law s target
                (setMethodParameterType_updater propertyKey parameterIndex arg)
                propertyKey) as Hmerge.
  unfold setMethodParameterType_updater in Hmerge at 1.
  rewrite typed_at_copy in Hmerge.
  unfold setMethodParameterType, args_of in *.
  destruct (typed_at _ parameterIndex); [by eexists | exact Hmerge].
Qed.

Lemma setMethodParameterType_returns_inv (s s' : Store) (target : nat)
      (propertyKey : PropertyKey) (parameterIndex : nat)
      (arg : SOCControllerMethodHandlerArg) :
  setMethodParameterType s target propertyKey parameterIndex arg = Return s' ->
  typed_at (args_of s target propertyKey) parameterIndex = false
  /\ getMetadata s' target propertyKey
     = mkMetadata (Some (js_array_set (js_array_copy (args_of s target propertyKey))
                           parameterIndex arg))
                  (others (getMetadata s target propertyKey))
  /\ args_of s' target propertyKey
     = js_array_set (js_array_copy (args_of s target propertyKey)) parameterIndex arg
  /\ forall target' k', (target', k') <> (target, propertyKey) ->
       getMetadata s' target' k' = getMetadata s target' k'.
Proof.
  intros Hset.
  pose proof (setMethodParameterType_run s target propertyKey parameterIndex arg) as Hrun.
  destruct (typed_at _ parameterIndex).
  - destruct Hrun as [msg Hthrow]. congruence.
  - destruct Hrun as (s0 & Hret & Hmd & Hrest).
    assert (s0 = s') as -> by congruence.
    repeat split; [done | | done]. unfold args_of at 1. by rewrite Hmd.
Qed.

End DecoratorFacts.

(** X16.  A successful [setMethodParameterType] touches the argument list
    only: whatever else the method's metadata holds is carried over, and the
    list afterwards is as long as before, or just long enough to hold the
    index when that lies past its end. *)
Theorem setMethodParameterType_keeps_the_rest `{metadata : !MetadataModule}
        (s s' : Store) (target : nat) (propertyKey : PropertyKey) (parameterIndex : nat)
        (arg : SOCControllerMethodHandlerArg) :
  merge_applies_updater metadata ->
  setMethodParameterType s target propertyKey parameterIndex arg = Return s' ->
  others (getMetadata s' target propertyKey) = others (getMetadata s target propertyKey)
  /\ length (args_of s' target propertyKey)
     = Nat.max (length (args_of s target propertyKey)) (S parameterIndex).
Proof.
  intros Hlaw Hset.
  destruct (setMethodParameterType_returns_inv Hlaw _ _ _ _ _ _ Hset)
    as (_ & Hmd & Hargs & _).
  rewrite Hargs, Hmd, js_array_set_length, js_array_copy_length. by split.
Qed.

Lemma setMethodParameterType_keeps_the_rest_witness :
  merge_applies_updater TableStore.module
  /\ exists s',
       setMethodParameterType (metadata := TableStore.module) TableStore.empty 7
         (KString "addNumbers") 2 (Sample.queryArg "c") = Return s'
       /\ length (args_of (metadata := TableStore.module) s' 7 (KString "addNumbers")) = 3.
Proof.
  split; [exact table_merge_applies_updater|].
  eexists. split; [reflexivity|].
  exact (proj2 (setMethodParameterType_keeps_the_rest (metadata := TableStore.module)
                  TableStore.empty _ 7 (KString "addNumbers") 2 (Sample.queryArg "c")
                  table_merge_applies_updater eq_refl)).
Defined.

(** X17.  A parameter position is written once: after a call that stored a
    descriptor with a non-empty type at an index, every further call for
    that method and index throws, whatever descriptor it brings. *)
Theorem setMethodParameterType_once `{metadata : !MetadataModule}
        (s s' : Store) (target : nat) (propertyKey : PropertyKey) (parameterIndex : nat)
        (arg again : SOCControllerMethodHandlerArg) :
  merge_applies_updater metadata ->
  setMethodParameterType s target propertyKey parameterIndex arg = Return s' ->
  arg_type arg <> "" ->
  exists msg,
    setMethodParameterType s' target propertyKey parameterIndex again = Throw (Error msg).
Proof.
  intros Hlaw Hset Htyped.
  destruct (setMethodParameterType_returns_inv Hlaw _ _ _ _ _ _ Hset)
    as (_ & _ & Hargs & _).
  pose proof (setMethodParameterType_run Hlaw s' target propertyKey parameterIndex again)
    as Hrun.
  rewrite Hargs, typed_at_set_eq in Hrun.
  destruct (String.eqb_spec (arg_type arg) ""); [contradiction | exact Hrun].
Qed.

Lemma setMethodParameterType_once_witness :
  merge_applies_updater TableStore.module
  /\ exists s',
       setMethodParameterType (metadata := TableStore.module) TableStore.empty 7
         (KString "addNumbers") 0 (Sample.queryArg "a") = Return s'
       /\ is_throw (setMethodParameterType (metadata := TableStore.module) s' 7
                      (KString "addNumbers") 0 (mkArg "request-raw" None)).
Proof.
  split; [exact table_merge_applies_updater|].
  eexists. split; [reflexivity|].
  destruct (setMethodParameterType_once (metadata := TableStore.module) TableStore.empty _ 7
              (KString "addNumbers") 0 (Sample.queryArg "a") (mkArg "request-raw" None)
              table_merge_applies_updater eq_refl ltac:(discriminate)) as [msg ->].
  exact I.
Defined.

(** X18.  Declaring two different parameter positions of a method works in
    either order: if declaring one and then the other succeeds, so does the
    opposite order, and both orders leave argument lists of the same length
    that read the same descriptor at every index, next to the same other
    metadata.  The lists themselves can differ: a slot neither call wrote is
    a hole in one order and an [undefined] entry in the other, as the
    witness shows for positions 2 and 0. *)
Theorem setMethodParameterType_commutes `{metadata : !MetadataModule}
        (s s1 s2 : Store) (target : nat) (propertyKey : PropertyKey) (i j : nat)
        (a b : SOCControllerMethodHandlerArg) :
  merge_applies_updater metadata ->
  i <> j ->
  setMethodParameterType s target propertyKey i a = Return s1 ->
  setMethodParameterType s1 target propertyKey j b = Return s2 ->
  exists s1' s2',
    setMethodParameterType s target propertyKey j b = Return s1'
    /\ setMethodParameterType s1' target propertyKey i a = Return s2'
    /\ (forall n, js_array_get (args_of s2' target propertyKey) n
                  = js_array_get (args_of s2 target propertyKey) n)
    /\ length (args_of s2' target propertyKey) = length (args_of s2 target propertyKey)
    /\ others (getMetadata s2' target propertyKey)
       = others (getMetadata s2 target propertyKey).
Proof.
  intros Hlaw Hne Hfirst Hsecond.
  destruct (setMethodParameterType_returns_inv Hlaw _ _ _ _ _ _ Hfirst)
    as (Hfree_i & Hmd1 & Hargs1 & _).
  destruct (setMethodParameterType_returns_inv Hlaw _ _ _ _ _ _ Hsecond)
    as (Hfree_j & Hmd2 & Hargs2 & _).
  rewrite Hargs1, typed_at_set_ne, typed_at_copy in Hfree_j by done.
  pose proof (setMethodParameterType_run Hlaw s target propertyKey j b) as Hrun1.
  rewrite Hfree_j in Hrun1.
  destruct Hrun1 as (s1' & Hret1 & Hmd1' & _).
  assert (Hargs1' : args_of s1' target propertyKey
                    = js_array_set (js_array_copy (args_of s target propertyKey)) j b).
  { unfold args_of at 1. by rewrite Hmd1'. }
  pose proof (setMethodParameterType_run Hlaw s1' target propertyKey i a) as Hrun2.
  rewrite Hargs1', typed_at_set_ne, typed_at_copy, Hfree_i in Hrun2 by done.
  destruct Hrun2 as (s2' & Hret2 & Hmd2' & _).
  assert (Hargs2' : args_of s2' target propertyKey
                    = js_array_set
                        (js_array_copy
                           (js_array_set (js_array_copy (args_of s target propertyKey)) j b))
                        i a).
  { unfold args_of at 1. by rewrite Hmd2'. }
  exists s1', s2'. split; [done|]. split; [done|].
  rewrite Hargs2', Hargs2, Hargs1, Hmd2', Hmd2, Hmd1', Hmd1. simpl.
  split; [|split; [|done]].
  - intros n. destruct (decide (n = i)) as [-> | Hni].
    + rewrite js_array_get_set_eq, js_array_get_set_ne by done.
      by rewrite js_array_get_copy, js_array_get_set_eq.
    + rewrite (js_array_get_set_ne _ i n) by done. rewrite js_array_get_copy.
      destruct (decide (n = j)) as [-> | Hnj].
      * by rewrite !js_array_get_set_eq.
      * rewrite !(js_array_get_set_ne _ j n) by done.
        rewrite !js_array_get_copy. by rewrite js_array_get_set_ne, js_array_get_copy.
  - rewrite !js_array_set_length, !js_array_copy_length, !js_array_set_length,
      !js_array_copy_length. lia.
Qed.

Lemma setMethodParameterType_commutes_witness :
  merge_applies_updater TableStore.module
  /\ exists s1 s2 s1' s2',
       setMethodParameterType (metadata := TableStore.module) TableStore.empty 7
         (KString "addNumbers") 2 (Sample.queryArg "c") = Return s1
       /\ setMethodParameterType (metadata := TableStore.module) s1 7
            (KString "addNumbers") 0 (Sample.queryArg "a") = Return s2
       /\ setMethodParameterType (metadata := TableStore.module) TableStore.empty 7
            (KString "addNumbers") 0 (Sample.queryArg "a") = Return s1'
       /\ setMethodParameterType (metadata := TableStore.module) s1' 7
            (KString "addNumbers") 2 (Sample.queryArg "c") = Return s2'
       /\ args_of (metadata := TableStore.module) s2 7 (KString "addNumbers")
          = [Item (Sample.queryArg "a"); Undefined; Item (Sample.queryArg "c")]
       /\ args_of (metadata := TableStore.module) s2' 7 (KString "addNumbers")
          = [Item (Sample.queryArg "a"); Hole; Item (Sample.queryArg "c")]
       /\ forall n, js_array_get (args_of (metadata := TableStore.module) s2' 7
                                    (KString "addNumbers")) n
                    = js_array_get (args_of (metadata := TableStore.module) s2 7
                                      (KString "addNumbers")) n.
Proof.
  split; [exact table_merge_applies_updater|].
  eexists _, _.
  destruct (setMethodParameterType_commutes (metadata := TableStore.module)
              TableStore.empty _ _ 7 (KString "addNumbers") 2 0
              (Sample.queryArg "c") (Sample.queryArg "a")
              table_merge_applies_updater ltac:(discriminate) eq_refl eq_refl)
    as (s1' & s2' & H1 & H2 & Hread & _).
  exists s1', s2'. split; [reflexivity|]. split; [reflexivity|].
  split; [exact H1|]. split; [exact H2|]. split; [reflexivity|].
  split; [|exact Hread].
  injection H1 as <-. injection H2 as <-. reflexivity.
Defined.

(** ** The parameter decorator *)

Lemma assoc_assign_key_eq (k : string) (x : JsVal) (fields : list (string * JsVal)) :
  assoc k (assign_key k x fields) = Some x.
Proof.
  induction fields as [|[k' v] fields IH]; simpl.
  - by rewrite String.eqb_refl.
  - destruct (String.eqb k' k) eqn:Hk; simpl; by rewrite Hk.
Qed.

Lemma assoc_assign_key_ne (k k0 : string) (x : JsVal) (fields : list (string * JsVal)) :
  k <> k0 -> assoc k0 (assign_key k x fields) = assoc k0 fields.
Proof.
  intros Hne. induction fields as [|[k' v] fields IH]; simpl.
  - by destruct (String.eqb_spec k k0).
  - destruct (String.eqb_spec k' k) as [-> | Hk]; simpl.
    + by destruct (String.eqb_spec k k0).
    + by rewrite IH.
Qed.

Lemma spread_absent (k : string) (base extra : list (string * JsVal)) :
  assoc k extra = None -> assoc k (spread base extra) = assoc k base.
Proof.
  unfold spread. revert base. induction extra as [|[k' v] extra IH]; intros base; [done|].
  simpl. destruct (String.eqb_spec k' k) as [-> | Hne]; [discriminate|].
  intros Hrest. rewrite IH by done. by apply assoc_assign_key_ne.
Qed.

Lemma assoc_None_keys {A : Type} (k : string) (l : list (string * A)) :
  k ∉ l.*1 -> assoc k l = None.
Proof.
  induction l as [|[k' v] l IH]; [done|]. simpl. intros Hnot.
  apply not_elem_of_cons in Hnot as [Hne Hnot].
  destruct (String.eqb_spec k' k); [congruence | by apply IH].
Qed.

Lemma spread_present (k : string) (v : JsVal) (base extra : list (string * JsVal)) :
  NoDup extra.*1 -> assoc k extra = Some v -> assoc k (spread base extra) = Some v.
Proof.
  unfold spread. revert base. induction extra as [|[k' x] extra IH]; intros base Hnd;
    [discriminate|].
  simpl in *. apply NoDup_cons in Hnd as [Hfresh Hnd].
  destruct (String.eqb_spec k' k) as [-> | Hne].
  - intros [= ->]. pose proof (spread_absent k (assign_key k v base) extra) as Habs.
    unfold spread in Habs. rewrite Habs by by apply assoc_None_keys.
    apply assoc_assign_key_eq.
  - intros Hrest. by apply IH.
Qed.

(** X19.  In the parameter object the decorator merges into the operation,
    every key of [paramObject] is there with [paramObject]'s value, and [in]
    and [name] are the decorator's own arguments unless [paramObject] has
    such a key, in which case [paramObject]'s value replaces them (the
    argument descriptor still carries the decorator's [name]). *)
Theorem parameter_object_keys (name paramIn : string)
        (paramObject : list (string * JsVal)) :
  NoDup paramObject.*1 ->
  (forall k v, assoc k paramObject = Some v ->
               assoc k (parameter_object name paramIn paramObject) = Some v)
  /\ (assoc "in" paramObject = None ->
      assoc "in" (parameter_object name paramIn paramObject) = Some (JStr paramIn))
  /\ (assoc "name" paramObject = None ->
      assoc "name" (parameter_object name paramIn paramObject) = Some (JStr name)).
Proof.
  intros Hnd. unfold parameter_object. split; [|split].
  - intros k v Hk. by apply spread_present.
  - intros Hin. by rewrite spread_absent.
  - intros Hname. by rewrite spread_absent.
Qed.

Lemma parameter_object_keys_witness :
  parameter_object "limit" "query"
    [("required", JBool true); ("name", JStr "max")]
  = [("in", JStr "query"); ("name", JStr "max"); ("required", JBool true)].
Proof.
  destruct (parameter_object_keys "limit" "query"
              [("required", JBool true); ("name", JStr "max")]) as (Hkeys & Hin & _).
  { apply NoDup_cons. split; [|apply NoDup_singleton].
    intros H. apply list_elem_of_singleton in H. discriminate. }
  specialize (Hkeys "name" (JStr "max") eq_refl). specialize (Hin eq_refl).
  reflexivity.
Defined.

(** X20.  The decorator as a whole: on a constructor parameter (no property
    key) it throws, naming [@QueryParam()] whatever the parameter location
    is; an exception of the fragment merge is its exception; after the
    fragment merge it throws when the index already carries a typed
    descriptor, and otherwise the method's argument list reads
    [{ type: "openapi-parameter", parameterName: name }] at the index and, at
    every other index, what it read after the fragment merge. *)
Theorem createParameterDecorator_cases `{metadata : !MetadataModule}
        `{fragments : !FragmentMerge metadata} (name paramIn : string)
        (paramObject : list (string * JsVal)) (s : Store) (target : nat)
        (parameterIndex : nat) :
  merge_applies_updater metadata ->
  createParameterDecorator name paramIn paramObject s target None parameterIndex
  = Throw (Error "@QueryParam() must be applied to a method.")
  /\ forall propertyKey,
       match mergeSOCControllerMethodMetadata_fragment s target
               (parameter_fragment name paramIn paramObject) propertyKey with
       | Throw e =>
           createParameterDecorator name paramIn paramObject s target (Some propertyKey)
             parameterIndex = Throw e
       | Return s1 =>
           if typed_at (args_of s1 target propertyKey) parameterIndex
           then exists msg,
                  createParameterDecorator name paramIn paramObject s target
                    (Some propertyKey) parameterIndex = Throw (Error msg)
           else exists s2,
                  createParameterDecorator name paramIn paramObject s target
                    (Some propertyKey) parameterIndex = Return s2
                  /\ js_array_get (args_of s2 target propertyKey) parameterIndex
                     = Some (mkArg "openapi-parameter" (Some name))
                  /\ forall j, j <> parameterIndex ->
                       js_array_get (args_of s2 target propertyKey) j
                       = js_array_get (args_of s1 target propertyKey) j
       end.
Proof.
  intros Hlaw. split; [reflexivity|]. intros propertyKey. simpl.
  destruct (mergeSOCControllerMethodMetadata_fragment s target _ propertyKey)
    as [s1|e]; [|reflexivity].
  pose proof (setMethodParameterType_run Hlaw s1 target propertyKey parameterIndex
                (mkArg "openapi-parameter" (Some name))) as Hrun.
  destruct (typed_at _ parameterIndex); [exact Hrun|].
  destruct Hrun as (s2 & Hret & Hmd & _). exists s2. split; [exact Hret|].
  assert (Hargs : args_of s2 target propertyKey
                  = js_array_set (js_array_copy (args_of s1 target propertyKey))
                      parameterIndex (mkArg "openapi-parameter" (Some name))).
  { unfold args_of at 1. by rewrite Hmd. }
  rewrite Hargs.
  split; [apply js_array_get_set_eq|].
  intros j Hj. by rewrite js_array_get_set_ne, js_array_get_copy.
Qed.

Lemma createParameterDecorator_cases_witness :
  merge_applies_updater TableStore.module
  /\ is_throw (createParameterDecorator (fragments := TableFragments.fragments)
                 "id" "path" [] TableStore.empty 7 None 0)
  /\ exists s2,
       createParameterDecorator (fragments := TableFragments.fragments)
         "id" "path" [("required", JBool true)] TableStore.empty 7
         (Some (KString "getPet")) 0 = Return s2
       /\ args_of (metadata := TableStore.module) s2 7 (KString "getPet")
          = [Item (mkArg "openapi-parameter" (Some "id"))]
       /\ is_throw (createParameterDecorator (fragments := TableFragments.fragments)
                      "other" "query" [] s2 7 (Some (KString "getPet")) 0).
Proof.
  split; [exact table_merge_applies_updater|].
  split.
  { destruct (createParameterDecorator_cases (fragments := TableFragments.fragments)
                "id" "path" [] TableStore.empty 7 0 table_merge_applies_updater)
      as [-> _]. exact I. }
  eexists. split; [reflexivity|]. split; [reflexivity|].
  match goal with
  | |- is_throw (createParameterDecorator _ _ _ ?s2 _ _ _) =>
      destruct (createParameterDecorator_cases (fragments := TableFragments.fragments)
                  "other" "query" [] s2 7 0 table_merge_applies_updater) as [_ Hcases]
  end.
  specialize (Hcases (KString "getPet")). simpl in Hcases.
  destruct Hcases as [msg Hthrow].
  exact (eq_ind_r (x := Throw (Error msg)) is_throw I Hthrow).
Defined.

(** X21.  With the default resolvers, a controller given as an object and a
    handler given as a function are used as they are: the built handler
    holds that very object and that very function, and the controller's
    members are never consulted. *)
Theorem createMethodHandlerFromSpec_concrete_binding `{package : !Package}
        (spec : OpenAPIObject) (path method : string) (ajv : AJV)
        (opts : CreateMethodHandlerOpts) (w : World)
        (pathItem : gmap string OperationObject) (operation : OperationObject)
        (extensionData : SOCControllerMethodExtensionData)
        (c : ControllerInstance) (f : Callable) :
  resolveController opts = None -> resolveHandler opts = None ->
  default [] (requestDataProcessorFactories opts) = [] ->
  default ∅ (paths spec) !! path = Some pathItem ->
  pathItem !! method = Some operation ->
  extension operation = Some extensionData ->
  validateSOCControllerMethodExtensionData extensionData = true ->
  ext_controller extensionData = ControllerObject c ->
  ext_handler extensionData = HandlerFunction f ->
  exists mh,
    createMethodHandlerFromSpec spec path method ajv opts w = (Return mh, w)
    /\ mh_controller mh = c /\ mh_handler mh = f
    /\ hc_controller (mh_context mh) = c /\ hc_handler (mh_context mh) = f.
Proof.
  intros Hrc Hrh Hfs Hpath Hop Hext Hvalid Hc Hf.
  rewrite (createMethodHandlerFromSpec_bound _ _ _ _ _ _ _ _ Hpath Hop Hext Hvalid).
  cbv zeta. rewrite Hrc, Hrh, Hc, Hf, Hfs. simpl.
  eexists. split; [reflexivity|]. repeat split.
Qed.

Lemma createMethodHandlerFromSpec_concrete_binding_witness :
  exists mh,
    createMethodHandlerFromSpec (package := Sample.package) Sample2.concrete_store "/pets"
      "get" SmallEngine.ajv Sample2.plain_options Sample.world0 = (Return mh, Sample.world0)
    /\ mh_controller mh = mkController []
    /\ mh_handler mh = Fn "listPets".
Proof.
  destruct (createMethodHandlerFromSpec_concrete_binding (package := Sample.package)
              Sample2.concrete_store "/pets" "get" SmallEngine.ajv Sample2.plain_options
              Sample.world0 {[ "get" := Sample2.concretePets ]} Sample2.concretePets
              (mkExtension (ControllerObject (mkController []))
                 (HandlerFunction (Fn "listPets")) None None None)
              (mkController []) (Fn "listPets")
              eq_refl eq_refl eq_refl eq_refl eq_refl eq_refl eq_refl eq_refl eq_refl)
    as (mh & Hrun & Hc & Hh & _).
  by exists mh.
Defined.
